(** * InterestelarTravel: the journey simulator of [src/main.py]

    A shallow embedding of [simulate_interstellar_travel], of the two
    dataclasses it fills, [TravelStage] and [MissionReport], and of
    [generate_mission_summary], followed by the properties that the
    specification states about them.

    Numbers.  The function is embedded twice.

    - Over exact rationals ([Q]), with [round(x, k)] as the exact rounding
      of [x] to [k] decimals, ties going to the even neighbour.  This
      embedding has the control flow of the source and the order of its
      numbers, not the rounding error of its arithmetic.  It carries the
      properties that do not depend on that error: which calls raise and
      which return, the number and numbering of the stages, and
      comparisons between fields, which every operation of the source
      (sum, product, quotient by a positive number, rounding) preserves in
      binary64 as it does in [Q].  The one non-finite value the function
      can produce from finite inputs, the [nan] of NumPy's [0.0 / 0], is
      kept ([NaN] below).

    - Over binary64 floats (module [Binary64]), with the operations of IEEE
      754 and NumPy's rounding (scale, [rint], scale back).  This embedding
      carries the properties that say what a field of the report equals.

    Randomness.  [np.random.shuffle] is embedded as a parameter [shuffle]
    of the simulation; the theorems that depend on it assume only that it
    returns a permutation of its argument. *)

From Stdlib Require Import QArith Qround Qabs Qreduction Lqa.
From Stdlib Require Import String ZArith Lia List Bool Permutation.
From Stdlib Require Import Floats Uint63.
From Stdlib Require Import Ascii DecimalString.
Import ListNotations.

Set Warnings "-inexact-float".

Open Scope Q_scope.

(** ** Constants ([main.py], lines 5-9) *)

Definition SPEED_OF_LIGHT : Q := 299792.458.
Definition LIGHT_YEAR_KM : Q := 9.461e12.
Definition HUBBLE_CONSTANT : Q := 70.
Definition MPC_TO_LY : Q := 3.26156e6.

(** ** The dataclasses ([main.py], lines 11-29) *)

(** A float of the report that may be NumPy's [nan]. *)
Inductive float64 : Type :=
| Finite (q : Q)
| NaN.

Record TravelStage : Type := mkTravelStage {
  stage_number : Z;
  speed_percentage : Q;
  distance_covered : Q;
  time_elapsed : Q;
  expansion_effect : Q
}.

Record MissionReport : Type := mkMissionReport {
  destination : string;
  distance : Q;
  mission_id : string;
  stages : list TravelStage;
  total_time : Q;
  total_distance : Q;
  expansion_addition : float64
}.

(** ** Exceptions *)

Inductive exn : Type :=
| ValueError (msg : string)
| ZeroDivisionError (msg : string).

Inductive result (A : Type) : Type :=
| Ok (a : A)
| Raise (e : exn).

Arguments Ok {A} a.
Arguments Raise {A} e.

(** The [ValueError] of line 55: the specification's [InvalidSpeedRange]. *)
Definition InvalidSpeedRange : exn :=
  ValueError "Speeds must be between 0.1% and 100% of light speed".

(** ** Built-ins and NumPy *)

(** [str(i)] for an [int]: its decimal numeral. *)
Definition str_of_int (i : Z) : string := NilZero.string_of_int (Z.to_int i).

(** Round half to even, to an integer ([np.rint], and Python's rule for
    ties in [round]). *)
Definition rint (x : Q) : Z :=
  let f := Qfloor x in
  match Qcompare (x - inject_Z f) (1 # 2) with
  | Lt => f
  | Gt => (f + 1)%Z
  | Eq => if Z.even f then f else (f + 1)%Z
  end.

Definition pow10 (ndigits : nat) : Q := inject_Z (10 ^ Z.of_nat ndigits).

(** [round(x, ndigits)] for [ndigits >= 0] in exact arithmetic: scale,
    round to an integer, scale back, none of the three steps rounded to
    binary64 ([Binary64.np_round] has them as NumPy computes them; the two
    can differ by a unit of the last decimal next to a tie).  Like NumPy's
    it is monotone, which is all that the theorems over [Q] use of it.  The
    result is kept in lowest terms, so that equal values are equal
    terms. *)
Definition py_round (x : Q) (ndigits : nat) : Q :=
  Qred (inject_Z (rint (x * pow10 ndigits)) / pow10 ndigits).

(** Modelled from the spec: [np.linspace(start, stop, num)], which is NumPy's
    and not in [src/]: [num] values linearly spaced between [start] and
    [stop], both included; the single value [start] when [num] is one; a
    [ValueError] that names [num] when it is negative. *)
Definition linspace_samples (start stop : Q) (num : Z) : list Q :=
  let step :=
    if (1 <? num)%Z then (stop - start) / inject_Z (num - 1) else 0 in
  map (fun i => start + inject_Z (Z.of_nat i) * step) (seq 0 (Z.to_nat num)).

(** The call itself, with NumPy's check of [num]. *)
Definition linspace (start stop : Q) (num : Z) : result (list Q) :=
  if (num <? 0)%Z then
    Raise (ValueError ("Number of samples, " ++ str_of_int num
                       ++ ", must be non-negative."))
  else
    Ok (linspace_samples start stop num).

(** [enumerate(l, start)]. *)
Fixpoint enumerate {A : Type} (l : list A) (start : Z) : list (Z * A) :=
  match l with
  | [] => []
  | x :: l' => (start, x) :: enumerate l' (start + 1)
  end.

(** ** The simulation ([main.py], lines 31-107) *)

(** The variables that the loop of line 66 updates. *)
Record loop_state : Type := mkState {
  st_stages : list TravelStage;
  st_remaining_distance : Q;
  st_total_time : Q;
  st_total_actual_distance : Q
}.

(** Lines 61-64. *)
Definition initial_state (distance_ly : Q) : loop_state :=
  {| st_stages := [];
     st_remaining_distance := distance_ly;
     st_total_time := 0;
     st_total_actual_distance := 0 |}.

(** One iteration, lines 67-94, in exact arithmetic ([Binary64.loop_body]
    has the same lines in binary64). *)
Definition loop_body (distance_ly : Q) (num_stages : Z)
    (st : loop_state) (it : Z * Q) : loop_state :=
  let (stage_num, speed_pct) := it in
  let speed_fraction := speed_pct / 100 in
  let speed_km_s := speed_fraction * SPEED_OF_LIGHT in
  let stage_distance := distance_ly / inject_Z num_stages in
  let distance_mpc := stage_distance / MPC_TO_LY in
  let expansion_speed := HUBBLE_CONSTANT * distance_mpc in
  let expansion_factor := 1 + expansion_speed / speed_km_s in
  let actual_distance := stage_distance * expansion_factor in
  let stage_time := actual_distance / speed_fraction in
  {| st_remaining_distance := st_remaining_distance st - stage_distance;
     st_total_actual_distance := st_total_actual_distance st + actual_distance;
     st_total_time := st_total_time st + stage_time;
     st_stages := st_stages st ++
       [ {| stage_number := stage_num;
            speed_percentage := py_round speed_pct 2;
            distance_covered := py_round actual_distance 2;
            time_elapsed := py_round stage_time 2;
            expansion_effect := py_round ((expansion_factor - 1) * 100) 4 |} ]
  |}.

(** The loop of lines 66-94 over an already shuffled profile. *)
Definition run_stages (distance_ly : Q) (num_stages : Z)
    (speed_profile : list Q) : loop_state :=
  fold_left (loop_body distance_ly num_stages)
            (enumerate speed_profile 1)
            (initial_state distance_ly).

(** Line 97.  With no stage [total_actual_distance] is still the Python
    float [0.0], and dividing it by zero raises; after a stage it is a
    NumPy scalar, and dividing it by zero gives [nan] ([0.0 / 0]; the total
    is zero whenever the distance is). *)
Definition expansion_impact (st : loop_state) (distance_ly : Q)
  : result float64 :=
  if Qeq_bool distance_ly 0 then
    match st_stages st with
    | [] => Raise (ZeroDivisionError "float division by zero")
    | _ :: _ => Ok NaN
    end
  else
    Ok (Finite ((st_total_actual_distance st / distance_ly - 1) * 100)).

(** [round(x, ndigits)] on a value that may be [nan]. *)
Definition round_float64 (x : float64) (ndigits : nat) : float64 :=
  match x with
  | Finite q => Finite (py_round q ndigits)
  | NaN => NaN
  end.

Definition simulate_interstellar_travel
    (shuffle : list Q -> list Q)
    (destination : string) (distance_ly : Q) (mission_id : string)
    (num_stages : Z) (min_speed max_speed : Q) : result MissionReport :=
  if negb (Qle_bool 0.1 min_speed && Qle_bool min_speed max_speed
           && Qle_bool max_speed 100) then
    Raise InvalidSpeedRange
  else
    match linspace min_speed max_speed num_stages with
    | Raise e => Raise e
    | Ok profile =>
      let speed_profile := shuffle profile in
      let st := run_stages distance_ly num_stages speed_profile in
      match expansion_impact st distance_ly with
      | Raise e => Raise e
      | Ok impact =>
        Ok {| destination := destination;
              distance := distance_ly;
              mission_id := mission_id;
              stages := st_stages st;
              total_time := py_round (st_total_time st) 2;
              total_distance := py_round (st_total_actual_distance st) 2;
              expansion_addition := round_float64 impact 4 |}
      end
    end.

(** ** The function over binary64 floats

    The same lines with the operations of IEEE 754 binary64 in place of
    the exact ones: first the loop and the report for a speed profile that
    is given, then the whole function. *)

Module Binary64.

#[local] Open Scope float_scope.

Definition SPEED_OF_LIGHT : float := 299792.458.
Definition HUBBLE_CONSTANT : float := 70.
Definition MPC_TO_LY : float := 3.26156e6.

Record TravelStage : Type := mkTravelStage {
  stage_number : Z;
  speed_percentage : float;
  distance_covered : float;
  time_elapsed : float;
  expansion_effect : float
}.

Record MissionReport : Type := mkMissionReport {
  destination : string;
  distance : float;
  mission_id : string;
  stages : list TravelStage;
  total_time : float;
  total_distance : float;
  expansion_addition : float
}.

(** [np.rint]: below 2^52 in magnitude, adding and removing 2^52 rounds to
    an integer, ties to even, in the sum; from 2^52 on every float is an
    integer. *)
Definition two52 : float := 4503599627370496.

Definition rint (x : float) : float :=
  if abs x <? two52 then
    if 0 <=? x then (x + two52) - two52 else (x - two52) + two52
  else x.

(** [round(x, ndigits)] on a NumPy scalar: scale, [rint], scale back. *)
Definition np_round (x : float) (ndigits : nat) : float :=
  let factor := of_uint63 (Uint63.of_Z (10 ^ Z.of_nat ndigits)) in
  rint (x * factor) / factor.

Record loop_state : Type := mkState {
  st_stages : list TravelStage;
  st_remaining_distance : float;
  st_total_time : float;
  st_total_actual_distance : float
}.

Definition loop_body (distance_ly : float) (num_stages : Z)
    (st : loop_state) (it : Z * float) : loop_state :=
  let (stage_num, speed_pct) := it in
  let speed_fraction := speed_pct / 100 in
  let speed_km_s := speed_fraction * SPEED_OF_LIGHT in
  let stage_distance := distance_ly / of_uint63 (Uint63.of_Z num_stages) in
  let distance_mpc := stage_distance / MPC_TO_LY in
  let expansion_speed := HUBBLE_CONSTANT * distance_mpc in
  let expansion_factor := 1 + expansion_speed / speed_km_s in
  let actual_distance := stage_distance * expansion_factor in
  let stage_time := actual_distance / speed_fraction in
  {| st_remaining_distance := st_remaining_distance st - stage_distance;
     st_total_actual_distance := st_total_actual_distance st + actual_distance;
     st_total_time := st_total_time st + stage_time;
     st_stages := st_stages st ++
       [ {| stage_number := stage_num;
            speed_percentage := np_round speed_pct 2;
            distance_covered := np_round actual_distance 2;
            time_elapsed := np_round stage_time 2;
            expansion_effect := np_round ((expansion_factor - 1) * 100) 4 |} ]
  |}.

Definition run_stages (distance_ly : float) (num_stages : Z)
    (speed_profile : list float) : loop_state :=
  fold_left (loop_body distance_ly num_stages)
            (enumerate speed_profile 1)
            {| st_stages := [];
               st_remaining_distance := distance_ly;
               st_total_time := 0;
               st_total_actual_distance := 0 |}.

(** Lines 96-107, for a distance other than zero and at least one stage. *)
Definition report_of_profile (speed_profile : list float)
    (destination : string) (distance_ly : float) (mission_id : string)
    (num_stages : Z) : MissionReport :=
  let st := run_stages distance_ly num_stages speed_profile in
  let expansion_impact :=
    (st_total_actual_distance st / distance_ly - 1) * 100 in
  {| destination := destination;
     distance := distance_ly;
     mission_id := mission_id;
     stages := st_stages st;
     total_time := np_round (st_total_time st) 2;
     total_distance := np_round (st_total_actual_distance st) 2;
     expansion_addition := np_round expansion_impact 4 |}.

(** The stage formulas of lines 67-80, for a stage flown at [p] percent. *)
Definition speed_fraction (p : float) : float := p / 100.

Definition stage_distance (distance_ly : float) (num_stages : Z) : float :=
  distance_ly / of_uint63 (Uint63.of_Z num_stages).

Definition expansion_factor (distance_ly : float) (num_stages : Z)
    (p : float) : float :=
  1 + HUBBLE_CONSTANT * (stage_distance distance_ly num_stages / MPC_TO_LY)
      / (speed_fraction p * SPEED_OF_LIGHT).

Definition actual_distance (distance_ly : float) (num_stages : Z)
    (p : float) : float :=
  stage_distance distance_ly num_stages
  * expansion_factor distance_ly num_stages p.

Definition stage_time (distance_ly : float) (num_stages : Z)
    (p : float) : float :=
  actual_distance distance_ly num_stages p / speed_fraction p.

(** A total as the loop accumulates it: from [0.0], one term after the
    other, each sum rounded to binary64. *)
Definition accumulate (l : list float) : float := fold_left PrimFloat.add l 0.

(** Modelled from the spec: [np.linspace(start, stop, num)] with the
    operations of NumPy's implementation, which is not in [src/]: the
    indices [0 .. num - 1] as floats, times the step [(stop - start) / (num - 1)]
    (or, when that step is zero, divided by [num - 1] and multiplied by
    [stop - start]), plus [start]; the last sample is then set to [stop]
    itself. *)
Definition linspace_samples (start stop : float) (num : Z) : list float :=
  let div := (num - 1)%Z in
  let delta := stop - start in
  let y := map (fun i => of_uint63 (Uint63.of_Z (Z.of_nat i)))
               (seq 0 (Z.to_nat num)) in
  let y :=
    if (0 <? div)%Z then
      let step := delta / of_uint63 (Uint63.of_Z div) in
      if step =? 0 then
        map (fun v => v / of_uint63 (Uint63.of_Z div) * delta) y
      else map (fun v => v * step) y
    else map (fun v => v * delta) y in
  let y := map (fun v => v + start) y in
  if (1 <? num)%Z then removelast y ++ [stop] else y.

Definition linspace (start stop : float) (num : Z) : result (list float) :=
  if (num <? 0)%Z then
    Raise (ValueError ("Number of samples, " ++ str_of_int num
                       ++ ", must be non-negative."))
  else
    Ok (linspace_samples start stop num).

(** Line 54. *)
Definition speed_check (min_speed max_speed : float) : bool :=
  (0.1 <=? min_speed) && (min_speed <=? max_speed) && (max_speed <=? 100).

(** Line 97.  Before any stage the total is a Python float, whose division
    by zero raises; after a stage it is a NumPy scalar, whose division
    follows IEEE 754. *)
Definition expansion_impact (st : loop_state) (distance_ly : float)
  : result float :=
  match st_stages st with
  | [] =>
    if distance_ly =? 0 then
      Raise (ZeroDivisionError "float division by zero")
    else Ok ((st_total_actual_distance st / distance_ly - 1) * 100)
  | _ :: _ => Ok ((st_total_actual_distance st / distance_ly - 1) * 100)
  end.

(** Lines 31-107.  The three roundings of lines 104-106 are NumPy's when a
    stage was flown; with no stage they are Python's own, of [0.0], [0.0]
    and a multiple of 100, on which the two agree. *)
Definition simulate_interstellar_travel
    (shuffle : list float -> list float)
    (destination : string) (distance_ly : float) (mission_id : string)
    (num_stages : Z) (min_speed max_speed : float) : result MissionReport :=
  if negb (speed_check min_speed max_speed) then
    Raise InvalidSpeedRange
  else
    match linspace min_speed max_speed num_stages with
    | Raise e => Raise e
    | Ok profile =>
      let speed_profile := shuffle profile in
      let st := run_stages distance_ly num_stages speed_profile in
      match expansion_impact st distance_ly with
      | Raise e => Raise e
      | Ok impact =>
        Ok {| destination := destination;
              distance := distance_ly;
              mission_id := mission_id;
              stages := st_stages st;
              total_time := np_round (st_total_time st) 2;
              total_distance := np_round (st_total_actual_distance st) 2;
              expansion_addition := np_round impact 4 |}
      end
    end.

(** The inputs the specification calls valid (section 6).  The number of
    stages is the length of a NumPy array, which fits a signed machine
    word; up to there [of_uint63] is the conversion of a Python [int] to a
    float. *)
Definition valid_inputs (distance_ly : float) (num_stages : Z)
    (min_speed max_speed : float) : Prop :=
  (0 <? distance_ly) = true /\ (1 <= num_stages < 2 ^ 63)%Z
  /\ speed_check min_speed max_speed = true.

Definition is_shuffle (shuffle : list float -> list float) : Prop :=
  forall l, Permutation l (shuffle l).

End Binary64.

(** ** The stage formulas as the specification words them (section 4.2)

    One definition per numbered step of the algorithm, as functions of the
    trip parameters and of the stage's speed percentage [p]. *)

Definition spec_speed_fraction (p : Q) : Q := p / 100.

Definition spec_speed_km_s (p : Q) : Q := spec_speed_fraction p * SPEED_OF_LIGHT.

Definition spec_stage_distance (total_distance : Q) (num_stages : Z) : Q :=
  total_distance / inject_Z num_stages.

Definition spec_distance_mpc (total_distance : Q) (num_stages : Z) : Q :=
  spec_stage_distance total_distance num_stages / MPC_TO_LY.

Definition spec_expansion_speed (total_distance : Q) (num_stages : Z) : Q :=
  HUBBLE_CONSTANT * spec_distance_mpc total_distance num_stages.

Definition spec_expansion_factor (total_distance : Q) (num_stages : Z)
    (p : Q) : Q :=
  1 + spec_expansion_speed total_distance num_stages / spec_speed_km_s p.

Definition spec_actual_distance (total_distance : Q) (num_stages : Z)
    (p : Q) : Q :=
  spec_stage_distance total_distance num_stages
  * spec_expansion_factor total_distance num_stages p.

Definition spec_stage_time (total_distance : Q) (num_stages : Z)
    (p : Q) : Q :=
  spec_actual_distance total_distance num_stages p / spec_speed_fraction p.

(** Step 8: the recorded stage. *)
Definition spec_stage (total_distance : Q) (num_stages : Z)
    (it : Z * Q) : TravelStage :=
  {| stage_number := fst it;
     speed_percentage := py_round (snd it) 2;
     distance_covered :=
       py_round (spec_actual_distance total_distance num_stages (snd it)) 2;
     time_elapsed :=
       py_round (spec_stage_time total_distance num_stages (snd it)) 2;
     expansion_effect :=
       py_round
         ((spec_expansion_factor total_distance num_stages (snd it) - 1) * 100)
         4 |}.

(** Sum of a list of numbers, accumulated from [0.0] left to right as the
    loop does (step 9). *)
Definition Qsum (l : list Q) : Q := fold_left Qplus l 0.


(** The inputs the specification calls valid (section 6). *)
Definition valid_speed_range (min_speed max_speed : Q) : Prop :=
  0.1 <= min_speed /\ min_speed <= max_speed /\ max_speed <= 100.

Definition valid_inputs (distance_ly : Q) (num_stages : Z)
    (min_speed max_speed : Q) : Prop :=
  0 < distance_ly /\ (1 <= num_stages)%Z
  /\ valid_speed_range min_speed max_speed.

(** What is assumed of [np.random.shuffle]. *)
Definition is_shuffle (shuffle : list Q -> list Q) : Prop :=
  forall l, Permutation l (shuffle l).

(** The numbers [1, 2, ..., n]. *)
Definition one_to (n : Z) : list Z := map Z.of_nat (seq 1 (Z.to_nat n)).

(** What a stage records besides its number. *)
Definition stage_values (s : TravelStage) : Q * Q * Q * Q :=
  (speed_percentage s, distance_covered s, time_elapsed s, expansion_effect s).

(** ** The summary ([main.py], lines 109-131)

    A [str] is embedded as the string of the bytes of its UTF-8 encoding.
    How Python prints a float is not in [src/]; the two ways the summary
    uses are parameters of the embedding: [fmt] for a replacement field
    without a format specification, [{x}], and [fmt_comma] for [{x:,}].
    An [int] is printed in decimal. *)

Definition newline : string := String (ascii_of_nat 10) EmptyString.

(** [s * n]. *)
Fixpoint str_mul (s : string) (n : nat) : string :=
  match n with
  | O => EmptyString
  | S n' => (s ++ str_mul s n')%string
  end.

(** The string appended for one stage, lines 118-124. *)
Definition stage_line (fmt fmt_comma : float64 -> string)
    (stage : TravelStage) : string :=
  ("Stage " ++ str_of_int (stage_number stage) ++ ": "
   ++ "Speed: " ++ fmt (Finite (speed_percentage stage)) ++ "% light | "
   ++ "Distance: " ++ fmt_comma (Finite (distance_covered stage)) ++ " ly | "
   ++ "Time: " ++ fmt_comma (Finite (time_elapsed stage)) ++ " yrs | "
   ++ "Expansion: +" ++ fmt (Finite (expansion_effect stage)) ++ "%")%string.

(** The list [summary] when line 131 is reached. *)
Definition summary_lines (fmt fmt_comma : float64 -> string)
    (report : MissionReport) : list string :=
  [ (newline ++ "ðŸš€ MISSION REPORT: " ++ mission_id report)%string;
    ("Destination: " ++ destination report)%string;
    ("Original Distance: " ++ fmt_comma (Finite (distance report))
     ++ " light-years")%string;
    str_mul "=" 50 ]
  ++ map (stage_line fmt fmt_comma) (stages report)
  ++ [ str_mul "=" 50;
       ("TOTAL MISSION TIME: " ++ fmt_comma (Finite (total_time report))
        ++ " years")%string;
       ("ACTUAL DISTANCE TRAVELED: "
        ++ fmt_comma (Finite (total_distance report))
        ++ " light-years")%string;
       ("EXPANSION IMPACT: +" ++ fmt (expansion_addition report)
        ++ "% extra distance")%string ].

(** Line 131: ["\n".join(summary)]. *)
Definition generate_mission_summary (fmt fmt_comma : float64 -> string)
    (report : MissionReport) : string :=
  String.concat newline (summary_lines fmt fmt_comma report).

(** Whether a string holds a line feed. *)
Fixpoint has_newline (s : string) : bool :=
  match s with
  | EmptyString => false
  | String c s' => Ascii.eqb c (ascii_of_nat 10) || has_newline s'
  end.

(** [s.split("\n")]: the lines of a text, as a reader of the summary sees
    them. *)
Fixpoint split_lines (s : string) : list string :=
  match s with
  | EmptyString => [EmptyString]
  | String c s' =>
    if Ascii.eqb c (ascii_of_nat 10) then EmptyString :: split_lines s'
    else match split_lines s' with
         | [] => [String c EmptyString]
         | line :: rest => String c line :: rest
         end
  end.

(** A way to print numbers, for the examples: the integer part in
    decimal. *)
Definition fmt_floor (x : float64) : string :=
  match x with
  | Finite q => str_of_int (Qfloor q)
  | NaN => "nan"
  end.

(** * Rounding *)


#[export] Instance rint_comp : Proper (Qeq ==> eq) rint.
Proof.
  intros x y Hxy. unfold rint.
  rewrite (Qfloor_comp _ _ Hxy).
  assert (Hc : Qcompare (x - inject_Z (Qfloor y)) (1 # 2)
               = Qcompare (y - inject_Z (Qfloor y)) (1 # 2)).
  { apply Qcompare_comp; [rewrite Hxy|]; reflexivity. }
  rewrite Hc. reflexivity.
Qed.

(** Rounding to an integer is monotone. *)
Lemma rint_le (x y : Q) : x <= y -> (rint x <= rint y)%Z.
Proof.
  intros Hxy.
  pose proof (Qfloor_resp_le _ _ Hxy) as Hf.
  destruct (Z.eq_dec (Qfloor x) (Qfloor y)) as [Heq|Hne].
  - unfold rint. rewrite Heq.
    destruct (Qcompare_spec (x - inject_Z (Qfloor y)) (1 # 2)) as [He|Hl|Hg];
      destruct (Qcompare_spec (y - inject_Z (Qfloor y)) (1 # 2)) as [He'|Hl'|Hg'];
      try (exfalso; lra); destruct (Z.even (Qfloor y)); lia.
  - assert (Hx : (rint x <= Qfloor x + 1)%Z).
    { unfold rint. destruct (Qcompare _ _); [destruct (Z.even _)| |]; lia. }
    assert (Hy : (Qfloor y <= rint y)%Z).
    { unfold rint. destruct (Qcompare _ _); [destruct (Z.even _)| |]; lia. }
    lia.
Qed.

Lemma pow10_pos (k : nat) : 0 < pow10 k.
Proof.
  unfold pow10. change 0 with (inject_Z 0). rewrite <- Zlt_Qlt.
  apply Z.pow_pos_nonneg; lia.
Qed.

(** [py_round] without the reduction to lowest terms. *)
Lemma py_round_eq (x : Q) (k : nat) :
  py_round x k == inject_Z (rint (x * pow10 k)) / pow10 k.
Proof. unfold py_round. apply Qred_correct. Qed.

(** Equal numbers round to the same term. *)
Lemma py_round_comp (x y : Q) (k : nat) :
  x == y -> py_round x k = py_round y k.
Proof.
  intros Hxy. unfold py_round. apply Qred_complete.
  assert (H : rint (x * pow10 k) = rint (y * pow10 k)).
  { apply rint_comp. rewrite Hxy. reflexivity. }
  rewrite H. reflexivity.
Qed.

#[export] Instance py_round_proper : Proper (Qeq ==> eq ==> Qeq) py_round.
Proof. intros x y Hxy k k' <-. rewrite (py_round_comp x y k Hxy). reflexivity. Qed.

(** Rounding is monotone. *)
Lemma py_round_le (x y : Q) (k : nat) :
  x <= y -> py_round x k <= py_round y k.
Proof.
  intros Hxy. rewrite !py_round_eq.
  pose proof (pow10_pos k) as Hp.
  assert (Hr : (rint (x * pow10 k) <= rint (y * pow10 k))%Z).
  { apply rint_le. apply Qmult_le_compat_r; lra. }
  rewrite Zle_Qle in Hr.
  unfold Qdiv. apply Qmult_le_compat_r; [exact Hr|].
  apply Qlt_le_weak, Qinv_lt_0_compat, Hp.
Qed.

(** * Lists: [enumerate], sums *)

Lemma enumerate_length {A : Type} (l : list A) (start : Z) :
  length (enumerate l start) = length l.
Proof. revert start. induction l as [|x l IH]; intros; simpl; auto. Qed.

Lemma enumerate_snd {A : Type} (l : list A) (start : Z) :
  map snd (enumerate l start) = l.
Proof.
  revert start. induction l as [|x l IH]; intros; simpl; [|rewrite IH]; reflexivity.
Qed.

Lemma enumerate_fst {A : Type} (l : list A) (start : Z) :
  map fst (enumerate l start)
  = map (fun i => (start + Z.of_nat i)%Z) (seq 0 (length l)).
Proof.
  revert start. induction l as [|x l IH]; intros start; simpl; [reflexivity|].
  f_equal; [lia|].
  rewrite IH, <- seq_shift, map_map.
  apply map_ext. intros i. lia.
Qed.

Lemma enumerate_nth_error {A : Type} (l : list A) (start : Z) (i : nat) :
  nth_error (enumerate l start) i
  = option_map (fun x => ((start + Z.of_nat i)%Z, x)) (nth_error l i).
Proof.
  revert start i. induction l as [|x l IH]; intros start [|i]; simpl;
    try reflexivity.
  - f_equal. f_equal. lia.
  - rewrite IH. destruct (nth_error l i); simpl; [|reflexivity].
    do 2 f_equal. lia.
Qed.

Lemma fold_left_Qplus_acc (l : list Q) (a : Q) :
  fold_left Qplus l a == a + Qsum l.
Proof.
  unfold Qsum. revert a. induction l as [|x l IH]; intros a; simpl.
  - lra.
  - rewrite (IH (a + x)), (IH (0 + x)). lra.
Qed.

Lemma Qsum_nil : Qsum [] == 0.
Proof. reflexivity. Qed.

Lemma Qsum_cons (x : Q) (l : list Q) : Qsum (x :: l) == x + Qsum l.
Proof. unfold Qsum at 1. simpl. rewrite fold_left_Qplus_acc. lra. Qed.


(** * The loop *)

Section Loop.

Variable distance_ly : Q.
Variable num_stages : Z.

(** One iteration, in terms of the formulas of the specification. *)
Lemma loop_body_spec (st : loop_state) (it : Z * Q) :
  loop_body distance_ly num_stages st it
  = {| st_stages := st_stages st ++ [spec_stage distance_ly num_stages it];
       st_remaining_distance :=
         st_remaining_distance st - spec_stage_distance distance_ly num_stages;
       st_total_time :=
         st_total_time st + spec_stage_time distance_ly num_stages (snd it);
       st_total_actual_distance :=
         st_total_actual_distance st
         + spec_actual_distance distance_ly num_stages (snd it) |}.
Proof. destruct it as [i p]. reflexivity. Qed.

(** The loop from any state: the stages are appended in order and the two
    totals are accumulated from left to right. *)
Lemma fold_loop_body (its : list (Z * Q)) (st : loop_state) :
  let st' := fold_left (loop_body distance_ly num_stages) its st in
  st_stages st' = st_stages st ++ map (spec_stage distance_ly num_stages) its
  /\ st_total_time st'
     = fold_left Qplus
         (map (fun it => spec_stage_time distance_ly num_stages (snd it)) its)
         (st_total_time st)
  /\ st_total_actual_distance st'
     = fold_left Qplus
         (map (fun it => spec_actual_distance distance_ly num_stages (snd it)) its)
         (st_total_actual_distance st).
Proof.
  revert st. induction its as [|it its IH]; intros st; cbn zeta.
  - simpl. rewrite app_nil_r. auto.
  - cbn [fold_left map]. specialize (IH (loop_body distance_ly num_stages st it)).
    cbn zeta in IH. destruct IH as (Hs & Ht & Hd).
    rewrite Hs, Ht, Hd, loop_body_spec. cbn [st_stages st_total_time
      st_total_actual_distance]. rewrite <- app_assoc. auto.
Qed.

Lemma run_stages_stages (speed_profile : list Q) :
  st_stages (run_stages distance_ly num_stages speed_profile)
  = map (spec_stage distance_ly num_stages) (enumerate speed_profile 1).
Proof.
  unfold run_stages.
  destruct (fold_loop_body (enumerate speed_profile 1)
                           (initial_state distance_ly)) as (Hs & _ & _).
  exact Hs.
Qed.

Lemma run_stages_total_time (speed_profile : list Q) :
  st_total_time (run_stages distance_ly num_stages speed_profile)
  = Qsum (map (spec_stage_time distance_ly num_stages) speed_profile).
Proof.
  unfold run_stages.
  destruct (fold_loop_body (enumerate speed_profile 1)
                           (initial_state distance_ly)) as (_ & Ht & _).
  rewrite Ht. unfold Qsum. cbn [initial_state st_total_time].
  rewrite <- (enumerate_snd speed_profile 1) at 2. rewrite map_map. reflexivity.
Qed.

Lemma run_stages_total_actual_distance (speed_profile : list Q) :
  st_total_actual_distance (run_stages distance_ly num_stages speed_profile)
  = Qsum (map (spec_actual_distance distance_ly num_stages) speed_profile).
Proof.
  unfold run_stages.
  destruct (fold_loop_body (enumerate speed_profile 1)
                           (initial_state distance_ly)) as (_ & _ & Hd).
  rewrite Hd. unfold Qsum. cbn [initial_state st_total_actual_distance].
  rewrite <- (enumerate_snd speed_profile 1) at 2. rewrite map_map. reflexivity.
Qed.

Lemma run_stages_length (speed_profile : list Q) :
  length (st_stages (run_stages distance_ly num_stages speed_profile))
  = length speed_profile.
Proof. rewrite run_stages_stages, length_map, enumerate_length. reflexivity. Qed.

Lemma run_stages_numbers (speed_profile : list Q) :
  map stage_number (st_stages (run_stages distance_ly num_stages speed_profile))
  = one_to (Z.of_nat (length speed_profile)).
Proof.
  rewrite run_stages_stages, map_map.
  change (map (fun x => stage_number (spec_stage distance_ly num_stages x))
              (enumerate speed_profile 1))
    with (map (@fst Z Q) (enumerate speed_profile 1)).
  rewrite (enumerate_fst speed_profile 1).
  unfold one_to. rewrite Nat2Z.id, <- seq_shift, map_map.
  apply map_ext. intros i. lia.
Qed.

End Loop.

(** * The speed profile *)

Lemma linspace_samples_length (start stop : Q) (num : Z) :
  length (linspace_samples start stop num) = Z.to_nat num.
Proof. unfold linspace_samples. rewrite length_map, length_seq. reflexivity. Qed.

(** Every sample lies between the two bounds. *)
Lemma linspace_samples_range (start stop : Q) (num : Z) (p : Q) :
  start <= stop ->
  In p (linspace_samples start stop num) ->
  start <= p /\ p <= stop.
Proof.
  intros Hle Hin. unfold linspace_samples in Hin.
  apply in_map_iff in Hin. destruct Hin as (i & <- & Hi).
  apply in_seq in Hi. destruct Hi as [_ Hi]. simpl in Hi.
  destruct (Z.ltb_spec 1 num) as [Hn|Hn].
  - assert (Hd : 0 < inject_Z (num - 1)).
    { change 0 with (inject_Z 0). rewrite <- Zlt_Qlt. lia. }
    assert (Hi0 : 0 <= inject_Z (Z.of_nat i)).
    { change 0 with (inject_Z 0). rewrite <- Zle_Qle. lia. }
    assert (Hi1 : inject_Z (Z.of_nat i) <= inject_Z (num - 1)).
    { rewrite <- Zle_Qle. lia. }
    set (k := inject_Z (Z.of_nat i)) in *. set (m := inject_Z (num - 1)) in *.
    assert (Hq0 : 0 <= k / m).
    { apply Qle_shift_div_l; [exact Hd|]. lra. }
    assert (Hq1 : k / m <= 1).
    { apply Qle_shift_div_r; [exact Hd|]. lra. }
    setoid_replace (start + k * ((stop - start) / m))
      with (start + (k / m) * (stop - start)) by (field; lra).
    split; nra.
  - split; lra.
Qed.

(** With equal bounds every sample is that bound. *)
Lemma linspace_samples_const (start stop : Q) (num : Z) (p : Q) :
  start == stop ->
  In p (linspace_samples start stop num) ->
  p == start.
Proof.
  intros Heq Hin.
  destruct (linspace_samples_range start stop num p) as [H1 H2];
    [rewrite Heq; apply Qle_refl | exact Hin | lra].
Qed.

Lemma linspace_ok (start stop : Q) (num : Z) :
  (0 <= num)%Z -> linspace start stop num = Ok (linspace_samples start stop num).
Proof.
  intros H. unfold linspace. destruct (Z.ltb_spec num 0); [lia|reflexivity].
Qed.

(** * Validation (lines 53-55) *)

Lemma speed_check_iff (min_speed max_speed : Q) :
  Qle_bool 0.1 min_speed && Qle_bool min_speed max_speed
  && Qle_bool max_speed 100 = true
  <-> valid_speed_range min_speed max_speed.
Proof.
  unfold valid_speed_range. rewrite !andb_true_iff, !Qle_bool_iff. tauto.
Qed.

Lemma simulate_invalid_speed shuffle dest d mid n min_speed max_speed :
  ~ valid_speed_range min_speed max_speed ->
  simulate_interstellar_travel shuffle dest d mid n min_speed max_speed
  = Raise InvalidSpeedRange.
Proof.
  intros H. unfold simulate_interstellar_travel.
  destruct (Qle_bool 0.1 min_speed && Qle_bool min_speed max_speed
            && Qle_bool max_speed 100) eqn:E; [|reflexivity].
  apply speed_check_iff in E. contradiction.
Qed.

(** The report of a call that passes the validation, for a distance other
    than zero: every field in terms of the formulas of the specification. *)
Lemma simulate_report shuffle dest d mid n min_speed max_speed :
  valid_speed_range min_speed max_speed ->
  (0 <= n)%Z ->
  ~ d == 0 ->
  let speed_profile := shuffle (linspace_samples min_speed max_speed n) in
  simulate_interstellar_travel shuffle dest d mid n min_speed max_speed
  = Ok {| destination := dest;
          distance := d;
          mission_id := mid;
          stages := map (spec_stage d n) (enumerate speed_profile 1);
          total_time :=
            py_round (Qsum (map (spec_stage_time d n) speed_profile)) 2;
          total_distance :=
            py_round (Qsum (map (spec_actual_distance d n) speed_profile)) 2;
          expansion_addition :=
            Finite (py_round
              ((Qsum (map (spec_actual_distance d n) speed_profile) / d - 1)
               * 100) 4) |}.
Proof.
  intros Hv Hn Hd speed_profile. unfold simulate_interstellar_travel.
  apply speed_check_iff in Hv. rewrite Hv. cbn [negb].
  rewrite (linspace_ok _ _ _ Hn). fold speed_profile.
  unfold expansion_impact.
  destruct (Qeq_bool d 0) eqn:E; [apply Qeq_bool_iff in E; contradiction|].
  cbn [round_float64].
  rewrite run_stages_stages, run_stages_total_time,
    run_stages_total_actual_distance.
  reflexivity.
Qed.

(** The report when the distance is zero and there is at least one stage:
    no exception, and an expansion addition that is not a number. *)
Lemma simulate_report_zero shuffle dest d mid n min_speed max_speed :
  is_shuffle shuffle ->
  valid_speed_range min_speed max_speed ->
  (1 <= n)%Z ->
  d == 0 ->
  let speed_profile := shuffle (linspace_samples min_speed max_speed n) in
  simulate_interstellar_travel shuffle dest d mid n min_speed max_speed
  = Ok {| destination := dest;
          distance := d;
          mission_id := mid;
          stages := map (spec_stage d n) (enumerate speed_profile 1);
          total_time :=
            py_round (Qsum (map (spec_stage_time d n) speed_profile)) 2;
          total_distance :=
            py_round (Qsum (map (spec_actual_distance d n) speed_profile)) 2;
          expansion_addition := NaN |}.
Proof.
  intros Hs Hv Hn Hd speed_profile. unfold simulate_interstellar_travel.
  apply speed_check_iff in Hv. rewrite Hv. cbn [negb].
  rewrite linspace_ok by lia. fold speed_profile.
  unfold expansion_impact.
  apply Qeq_bool_iff in Hd. rewrite Hd.
  rewrite run_stages_stages, run_stages_total_time,
    run_stages_total_actual_distance.
  assert (Hlen : length speed_profile = Z.to_nat n).
  { unfold speed_profile.
    rewrite <- (Permutation_length (Hs _)). apply linspace_samples_length. }
  destruct speed_profile as [|p l]; [simpl in Hlen; lia|].
  reflexivity.
Qed.

Lemma shuffled_length shuffle (start stop : Q) (num : Z) :
  is_shuffle shuffle ->
  length (shuffle (linspace_samples start stop num)) = Z.to_nat num.
Proof.
  intros Hs. rewrite <- (Permutation_length (Hs _)).
  apply linspace_samples_length.
Qed.

(** Every speed of the shuffled profile lies between the two bounds. *)
Lemma shuffled_range shuffle (start stop : Q) (num : Z) (p : Q) :
  is_shuffle shuffle ->
  start <= stop ->
  In p (shuffle (linspace_samples start stop num)) ->
  start <= p /\ p <= stop.
Proof.
  intros Hs Hle Hin. apply (linspace_samples_range start stop num p Hle).
  apply (Permutation_in p (Permutation_sym (Hs _)) Hin).
Qed.

Lemma rev_is_shuffle : is_shuffle (@rev Q).
Proof. intros l. apply Permutation_rev. Qed.

(** * The properties of the specification *)

(** C3.  For valid inputs the call returns a report with exactly
    [num_stages] stages, and their [stage_number] fields, read in order,
    are 1, 2, ..., [num_stages]. *)
Theorem stages_are_numbered_one_to_num_stages
    shuffle dest d mid n min_speed max_speed :
  is_shuffle shuffle ->
  valid_inputs d n min_speed max_speed ->
  exists r,
    simulate_interstellar_travel shuffle dest d mid n min_speed max_speed = Ok r
    /\ Z.of_nat (length (stages r)) = n
    /\ map stage_number (stages r) = one_to n.
Proof.
  intros Hs (Hd & Hn & Hv).
  eexists. split; [apply simulate_report; [exact Hv | lia | lra]|].
  cbn [stages]. rewrite <- !run_stages_stages.
  rewrite run_stages_length, run_stages_numbers, shuffled_length by exact Hs.
  rewrite Z2Nat.id by lia. split; reflexivity.
Qed.

Lemma stages_are_numbered_witness :
  exists r,
    simulate_interstellar_travel (@rev Q) "Andromeda Galaxy" 2500000 "AND-001"
                                 5 1 5 = Ok r
    /\ Z.of_nat (length (stages r)) = 5%Z
    /\ map stage_number (stages r) = one_to 5.
Proof.
  apply (stages_are_numbered_one_to_num_stages
           (@rev Q) "Andromeda Galaxy" 2500000 "AND-001" 5 1 5).
  - exact rev_is_shuffle.
  - unfold valid_inputs, valid_speed_range. repeat split; try lia; lra.
Defined.

(** C5.  The call raises the speed-range [ValueError] (the specification's
    [InvalidSpeedRange]), and so returns no report, exactly when the bounds
    violate [0.1 <= min_speed <= max_speed <= 100]; it does for
    [min_speed = 0.05], whatever the upper bound, and for [min_speed = 80]
    with [max_speed = 50]. *)
Theorem invalid_speed_range_iff shuffle dest d mid n :
  (forall min_speed max_speed,
     simulate_interstellar_travel shuffle dest d mid n min_speed max_speed
     = Raise InvalidSpeedRange
     <-> ~ valid_speed_range min_speed max_speed)
  /\ (forall max_speed,
        simulate_interstellar_travel shuffle dest d mid n 0.05 max_speed
        = Raise InvalidSpeedRange)
  /\ simulate_interstellar_travel shuffle dest d mid n 80 50
     = Raise InvalidSpeedRange.
Proof.
  split; [|split].
  - intros min_speed max_speed. split.
    + intros H Hv. unfold simulate_interstellar_travel in H.
      apply speed_check_iff in Hv. rewrite Hv in H. cbn [negb] in H.
      unfold linspace in H. destruct (n <? 0)%Z; [discriminate H|].
      destruct (expansion_impact _ _) as [x|e] eqn:E; [discriminate H|].
      unfold expansion_impact in E.
      destruct (Qeq_bool d 0); [|discriminate E].
      destruct (st_stages _); [|discriminate E].
      injection E as <-. discriminate H.
    + apply simulate_invalid_speed.
  - intros max_speed. apply simulate_invalid_speed.
    unfold valid_speed_range. intros (H & _). lra.
  - apply simulate_invalid_speed.
    unfold valid_speed_range. intros (_ & H & _). lra.
Qed.

(** C10.  With [num_stages = 0], valid speed bounds and a positive
    distance, no exception is raised (the stage count is never validated and
    the loop body never runs): the report has no stage, a total time and a
    total distance of 0, and an expansion addition of -100. *)
Theorem zero_stages_report shuffle dest d mid min_speed max_speed :
  is_shuffle shuffle ->
  valid_speed_range min_speed max_speed ->
  0 < d ->
  simulate_interstellar_travel shuffle dest d mid 0 min_speed max_speed
  = Ok {| destination := dest;
          distance := d;
          mission_id := mid;
          stages := [];
          total_time := 0;
          total_distance := 0;
          expansion_addition := Finite (-100) |}.
Proof.
  intros Hs Hv Hd.
  rewrite simulate_report; [|exact Hv|lia|lra].
  assert (Hnil : shuffle (linspace_samples min_speed max_speed 0) = []).
  { apply length_zero_iff_nil. rewrite shuffled_length by exact Hs. reflexivity. }
  rewrite Hnil. cbn [enumerate map].
  assert (He : (Qsum [] / d - 1) * 100 == -100).
  { rewrite Qsum_nil. field. lra. }
  rewrite (py_round_comp _ _ 4 He).
  reflexivity.
Qed.

Lemma zero_stages_report_witness :
  simulate_interstellar_travel (@rev Q) "Sirius" 8.611 "SIR-000" 0 1 5
  = Ok {| destination := "Sirius";
          distance := 8.611;
          mission_id := "SIR-000";
          stages := [];
          total_time := 0;
          total_distance := 0;
          expansion_addition := Finite (-100) |}.
Proof.
  apply (zero_stages_report (@rev Q) "Sirius" 8.611 "SIR-000" 1 5).
  - exact rev_is_shuffle.
  - unfold valid_speed_range. repeat split; lra.
  - lra.
Defined.

(** C6, as the code has it.  A distance that is zero or negative is not
    rejected: with valid speed bounds and at least one stage the call
    raises nothing and returns a report for that distance; its expansion
    addition is a number when the distance is negative and [nan] when it
    is zero. *)
Theorem nonpositive_distance_is_not_rejected
    shuffle dest d mid n min_speed max_speed :
  is_shuffle shuffle ->
  valid_speed_range min_speed max_speed ->
  (1 <= n)%Z ->
  d <= 0 ->
  exists r,
    simulate_interstellar_travel shuffle dest d mid n min_speed max_speed = Ok r
    /\ distance r = d
    /\ Z.of_nat (length (stages r)) = n
    /\ (d == 0 -> expansion_addition r = NaN)
    /\ (d < 0 -> exists q, expansion_addition r = Finite q).
Proof.
  intros Hs Hv Hn Hd.
  assert (Hlen : forall speed_profile,
             speed_profile = shuffle (linspace_samples min_speed max_speed n) ->
             Z.of_nat (length (map (spec_stage d n) (enumerate speed_profile 1)))
             = n).
  { intros sp ->. rewrite length_map, enumerate_length, shuffled_length
      by exact Hs. lia. }
  destruct (Qeq_dec d 0) as [Hz|Hnz].
  - eexists. split; [apply simulate_report_zero; assumption|].
    cbn [distance stages expansion_addition].
    split; [reflexivity|]. split; [apply Hlen; reflexivity|].
    split; [reflexivity|]. intros; lra.
  - eexists. split; [apply simulate_report; [exact Hv | lia | exact Hnz]|].
    cbn [distance stages expansion_addition].
    split; [reflexivity|]. split; [apply Hlen; reflexivity|].
    split; [intros; contradiction|]. intros _. eexists. reflexivity.
Qed.

Lemma nonpositive_distance_witness :
  exists r,
    simulate_interstellar_travel (@rev Q) "Nowhere" 0 "NUL-001" 3 1 5 = Ok r
    /\ distance r = 0
    /\ Z.of_nat (length (stages r)) = 3%Z
    /\ (0 == 0 -> expansion_addition r = NaN)
    /\ (0 < 0 -> exists q, expansion_addition r = Finite q).
Proof.
  apply (nonpositive_distance_is_not_rejected
           (@rev Q) "Nowhere" 0 "NUL-001" 3 1 5).
  - exact rev_is_shuffle.
  - unfold valid_speed_range. repeat split; lra.
  - lia.
  - lra.
Defined.

(** C6 as stated fails: a distance of -7 light-years, with the default
    stage count and speed bounds, is simulated like any other; no
    exception is raised. *)
Lemma negative_distance_gives_a_report :
  -7 <= 0
  /\ valid_speed_range 1 5
  /\ exists r,
       simulate_interstellar_travel (fun l => l) "Nowhere" (-7) "NEG-001" 5 1 5
       = Ok r
       /\ distance r == -7
       /\ map stage_number (stages r) = [1; 2; 3; 4; 5]%Z
       /\ Forall (fun s => distance_covered s == -1.4) (stages r)
       /\ total_distance r == -7
       /\ total_time r == -319.67
       /\ expansion_addition r = Finite 0.
Proof.
  split; [lra|]. split; [unfold valid_speed_range; repeat split; lra|].
  eexists. split; [vm_compute; reflexivity|].
  cbn [distance stages total_distance total_time expansion_addition map
       stage_number].
  repeat split; try reflexivity.
  repeat constructor.
Qed.

(** The stage formulas respect equality of the speed. *)
Lemma spec_stage_speed_comp (d : Q) (n : Z) (i j : Z) (p q : Q) :
  p == q ->
  let s := spec_stage d n (i, p) in
  let t := spec_stage d n (j, q) in
  speed_percentage s = speed_percentage t
  /\ distance_covered s = distance_covered t
  /\ time_elapsed s = time_elapsed t
  /\ expansion_effect s = expansion_effect t.
Proof.
  intros Hpq. cbn zeta. unfold spec_stage. cbn [snd speed_percentage
    distance_covered time_elapsed expansion_effect].
  repeat split; apply py_round_comp;
    unfold spec_stage_time, spec_actual_distance, spec_expansion_factor,
      spec_speed_km_s, spec_speed_fraction;
    rewrite Hpq; reflexivity.
Qed.

(** C8.  For valid inputs with [min_speed] equal to [max_speed], any two
    stages of the report have the same [speed_percentage],
    [distance_covered], [time_elapsed] and [expansion_effect], whatever
    permutation the shuffle picks. *)
Theorem equal_bounds_give_identical_stages
    shuffle dest d mid n min_speed max_speed :
  is_shuffle shuffle ->
  valid_inputs d n min_speed max_speed ->
  min_speed == max_speed ->
  exists r,
    simulate_interstellar_travel shuffle dest d mid n min_speed max_speed = Ok r
    /\ forall s t,
         In s (stages r) -> In t (stages r) ->
         speed_percentage s = speed_percentage t
         /\ distance_covered s = distance_covered t
         /\ time_elapsed s = time_elapsed t
         /\ expansion_effect s = expansion_effect t.
Proof.
  intros Hs (Hd & Hn & Hv) Heq.
  eexists. split; [apply simulate_report; [exact Hv | lia | lra]|].
  cbn [stages]. intros s t Hin_s Hin_t.
  apply in_map_iff in Hin_s. destruct Hin_s as ([i p] & <- & Hip).
  apply in_map_iff in Hin_t. destruct Hin_t as ([j q] & <- & Hjq).
  apply spec_stage_speed_comp.
  assert (Hconst : forall k x,
             In (k, x) (enumerate
                          (shuffle (linspace_samples min_speed max_speed n)) 1) ->
             x == min_speed).
  { intros k x Hkx.
    apply (linspace_samples_const min_speed max_speed n x Heq).
    apply (Permutation_in x (Permutation_sym (Hs _))).
    rewrite <- (enumerate_snd (shuffle _) 1).
    apply in_map_iff. exists (k, x). split; [reflexivity | exact Hkx]. }
  rewrite (Hconst _ _ Hip), (Hconst _ _ Hjq). reflexivity.
Qed.

Lemma equal_bounds_witness :
  exists r,
    simulate_interstellar_travel (@rev Q) "Andromeda Galaxy" 2500000 "AND-001"
                                 5 10 10 = Ok r
    /\ forall s t,
         In s (stages r) -> In t (stages r) ->
         speed_percentage s = speed_percentage t
         /\ distance_covered s = distance_covered t
         /\ time_elapsed s = time_elapsed t
         /\ expansion_effect s = expansion_effect t.
Proof.
  apply (equal_bounds_give_identical_stages
           (@rev Q) "Andromeda Galaxy" 2500000 "AND-001" 5 10 10).
  - exact rev_is_shuffle.
  - unfold valid_inputs, valid_speed_range. repeat split; try lia; lra.
  - reflexivity.
Defined.

(** * Magnitudes *)

Lemma inject_Z_pos (n : Z) : (1 <= n)%Z -> 0 < inject_Z n.
Proof. intros H. change 0 with (inject_Z 0). rewrite <- Zlt_Qlt. lia. Qed.

Lemma Qdiv_pos (a b : Q) : 0 < a -> 0 < b -> 0 < a / b.
Proof. intros Ha Hb. apply Qlt_shift_div_l; [exact Hb|]. lra. Qed.

Lemma SPEED_OF_LIGHT_pos : 0 < SPEED_OF_LIGHT.
Proof. reflexivity. Qed.

Lemma MPC_TO_LY_pos : 0 < MPC_TO_LY.
Proof. reflexivity. Qed.

Lemma HUBBLE_CONSTANT_pos : 0 < HUBBLE_CONSTANT.
Proof. reflexivity. Qed.

Section Magnitudes.

Variable d : Q.
Variable n : Z.
Hypothesis d_pos : 0 < d.
Hypothesis n_pos : (1 <= n)%Z.

Lemma stage_distance_pos : 0 < spec_stage_distance d n.
Proof. apply Qdiv_pos; [exact d_pos | apply inject_Z_pos, n_pos]. Qed.


Lemma expansion_speed_pos : 0 < spec_expansion_speed d n.
Proof.
  unfold spec_expansion_speed, spec_distance_mpc.
  pose proof (Qdiv_pos _ _ stage_distance_pos MPC_TO_LY_pos).
  pose proof HUBBLE_CONSTANT_pos. nra.
Qed.

Lemma speed_km_s_pos (p : Q) : 0 < p -> 0 < spec_speed_km_s p.
Proof.
  intros Hp. unfold spec_speed_km_s, spec_speed_fraction.
  assert (H : 0 < p / 100) by (apply Qdiv_pos; lra).
  pose proof SPEED_OF_LIGHT_pos. nra.
Qed.

(** Step 5: the expansion factor exceeds one. *)
Lemma expansion_factor_gt_1 (p : Q) :
  0 < p -> 1 < spec_expansion_factor d n p.
Proof.
  intros Hp. unfold spec_expansion_factor.
  pose proof (Qdiv_pos _ _ expansion_speed_pos (speed_km_s_pos p Hp)). lra.
Qed.

(** Step 6: the actual distance of a stage exceeds its nominal share. *)
Lemma actual_distance_gt_nominal (p : Q) :
  0 < p -> spec_stage_distance d n < spec_actual_distance d n p.
Proof.
  intros Hp. unfold spec_actual_distance.
  pose proof stage_distance_pos. pose proof (expansion_factor_gt_1 p Hp). nra.
Qed.


End Magnitudes.

(** The speeds of the shuffled profile are positive once the bounds are
    valid. *)
Lemma shuffled_speeds_pos shuffle (min_speed max_speed : Q) (n : Z) (p : Q) :
  is_shuffle shuffle ->
  valid_speed_range min_speed max_speed ->
  In p (shuffle (linspace_samples min_speed max_speed n)) ->
  0 < p.
Proof.
  intros Hs (H1 & H2 & _) Hin.
  destruct (shuffled_range shuffle min_speed max_speed n p Hs H2 Hin) as [H _].
  lra.
Qed.


(** C7 as stated fails: for the 2,500,000 light-years to Andromeda in one
    stage at 10% of light speed, the single stage records a
    [distance_covered] of 2,504,474.37 light-years, not the 2,500,000 of
    the requested distance. *)
Lemma single_stage_distance_covered_differs :
  valid_inputs 2500000 1 10 10
  /\ exists r s,
       simulate_interstellar_travel (fun l => l) "Andromeda Galaxy" 2500000
                                    "AND-001" 1 10 10 = Ok r
       /\ stages r = [s]
       /\ distance r == 2500000
       /\ distance_covered s == 2504474.37
       /\ ~ distance_covered s == distance r.
Proof.
  split; [unfold valid_inputs, valid_speed_range; repeat split; try lia; lra|].
  eexists. eexists. split; [vm_compute; reflexivity|].
  cbn [stages distance distance_covered].
  split; [reflexivity|]. split; [reflexivity|]. split; [reflexivity|].
  intros H. discriminate H.
Qed.

(** * The stage distances and the total *)


(** * The mission of the program entry point

    Lines 135-142: Andromeda, 2,500,000 light-years in 5 stages at 10% of
    light speed (the example scenario of the specification). *)
Example andromeda_mission :
  exists r,
    simulate_interstellar_travel (fun l => l) "Andromeda Galaxy" 2500000
                                 "AND-001" 5 10 10 = Ok r
    /\ map stage_number (stages r) = [1; 2; 3; 4; 5]%Z
    /\ Forall (fun s => speed_percentage s == 10
                        /\ distance_covered s == 500178.97
                        /\ time_elapsed s == 5001789.75
                        /\ expansion_effect s == 0.0358) (stages r)
    /\ total_time r == 25008948.74
    /\ total_distance r == 2500894.87
    /\ exists ea, expansion_addition r = Finite ea /\ ea == 0.0358.
Proof.
  eexists. split; [vm_compute; reflexivity|].
  cbn [stages map stage_number total_time total_distance expansion_addition].
  split; [reflexivity|]. split; [repeat constructor|].
  split; [reflexivity|]. split; [reflexivity|].
  eexists. split; reflexivity.
Qed.

(** * Replays in binary64

    The three calls above that contradict the specification, with the
    arithmetic of the machine: the reports are the same. *)

(** Sirius, 8.611 light-years in 5 stages at 1, 2, 3, 4 and 5 percent: the
    reported total is 8.61. *)
Example binary64_rounded_total_below_distance :
  let r := Binary64.report_of_profile [1; 2; 3; 4; 5]%float
             "Sirius" 8.611%float "SIR-001" 5 in
  Binary64.total_distance r = 8.61%float
  /\ PrimFloat.ltb (Binary64.total_distance r) (Binary64.distance r) = true.
Proof. vm_compute. split; reflexivity. Qed.

(** Andromeda in one stage at 10 percent: the stage covers 2,504,474.37
    light-years. *)
Example binary64_single_stage_distance_covered :
  let r := Binary64.report_of_profile [10]%float
             "Andromeda Galaxy" 2500000%float "AND-001" 1 in
  map Binary64.distance_covered (Binary64.stages r) = [2504474.37]%float
  /\ Binary64.total_distance r = 2504474.37%float.
Proof. vm_compute. split; reflexivity. Qed.

(** 3000 light-years in 3 stages at 1.4317986892 percent: the actual
    distance of a stage is the float nearest to 1000.005, which times 100
    is 100000.5 and is recorded as 1000.0; the total times 100 is 300001.5
    and is reported as 3000.02. *)
Example binary64_rounding_slack_exceeds_claimed_bound :
  let p := 1.4317986892%float in
  let r := Binary64.report_of_profile [p; p; p]
             "Far" 3000%float "FAR-003" 3 in
  map Binary64.distance_covered (Binary64.stages r)
  = [1000; 1000; 1000]%float
  /\ Binary64.total_distance r = 3000.02%float.
Proof. vm_compute. split; reflexivity. Qed.

(** * Further properties of the simulation *)

(** X1.  The four outcomes of a call.  The speed bounds are checked first; then
    [np.linspace] rejects a negative stage count, naming it in its message
    (["Number of samples, -1, must be non-negative."]); then the only exception
    left is the division of line 97 when both the distance and the stage
    count are zero.  Every other call returns a report that carries the
    destination, the distance and the mission identifier it was given, and
    one stage per requested stage. *)
Theorem simulation_outcomes shuffle dest d mid n min_speed max_speed :
  is_shuffle shuffle ->
  let call :=
    simulate_interstellar_travel shuffle dest d mid n min_speed max_speed in
  (~ valid_speed_range min_speed max_speed ->
   call = Raise InvalidSpeedRange)
  /\ (valid_speed_range min_speed max_speed -> (n < 0)%Z ->
      call = Raise (ValueError ("Number of samples, " ++ str_of_int n
                                ++ ", must be non-negative.")))
  /\ (valid_speed_range min_speed max_speed -> n = 0%Z -> d == 0 ->
      call = Raise (ZeroDivisionError "float division by zero"))
  /\ (valid_speed_range min_speed max_speed -> (0 <= n)%Z ->
      ~ (n = 0%Z /\ d == 0) ->
      exists r,
        call = Ok r
        /\ destination r = dest /\ distance r = d /\ mission_id r = mid
        /\ Z.of_nat (length (stages r)) = n).
Proof.
  intros Hs call. subst call.
  split; [apply simulate_invalid_speed|].
  split; [|split].
  - intros Hv Hn. unfold simulate_interstellar_travel.
    apply speed_check_iff in Hv. rewrite Hv. cbn [negb].
    unfold linspace. destruct (Z.ltb_spec n 0); [reflexivity | lia].
  - intros Hv -> Hd. unfold simulate_interstellar_travel.
    apply speed_check_iff in Hv. rewrite Hv. cbn [negb].
    rewrite linspace_ok by lia. unfold expansion_impact.
    apply Qeq_bool_iff in Hd. rewrite Hd.
    rewrite run_stages_stages.
    assert (Hnil : shuffle (linspace_samples min_speed max_speed 0) = []).
    { apply length_zero_iff_nil. rewrite shuffled_length by exact Hs.
      reflexivity. }
    rewrite Hnil. reflexivity.
  - intros Hv Hn Hnz.
    assert (Hlen : Z.of_nat
              (length (map (spec_stage d n)
                 (enumerate (shuffle (linspace_samples min_speed max_speed n))
                            1))) = n).
    { rewrite length_map, enumerate_length, shuffled_length by exact Hs. lia. }
    destruct (Qeq_dec d 0) as [Hz|Hz].
    + eexists. split.
      * apply simulate_report_zero; [exact Hs | exact Hv | | exact Hz].
        destruct (Z.eq_dec n 0) as [->|]; [exfalso; apply Hnz; auto | lia].
      * cbn [destination distance mission_id stages]. auto.
    + eexists. split; [apply simulate_report; assumption|].
      cbn [destination distance mission_id stages]. auto.
Qed.

Lemma simulation_outcomes_witness :
  let call :=
    simulate_interstellar_travel (@rev Q) "Sirius" 8.611 "SIR-001" 5 1 5 in
  (~ valid_speed_range 1 5 -> call = Raise InvalidSpeedRange)
  /\ (valid_speed_range 1 5 -> (5 < 0)%Z ->
      call = Raise (ValueError ("Number of samples, " ++ str_of_int 5
                                ++ ", must be non-negative.")))
  /\ (valid_speed_range 1 5 -> 5%Z = 0%Z -> 8.611 == 0 ->
      call = Raise (ZeroDivisionError "float division by zero"))
  /\ (valid_speed_range 1 5 -> (0 <= 5)%Z ->
      ~ (5%Z = 0%Z /\ 8.611 == 0) ->
      exists r,
        call = Ok r
        /\ destination r = "Sirius"%string /\ distance r = 8.611
        /\ mission_id r = "SIR-001"%string
        /\ Z.of_nat (length (stages r)) = 5%Z).
Proof.
  exact (simulation_outcomes (@rev Q) "Sirius" 8.611 "SIR-001" 5 1 5
           rev_is_shuffle).
Defined.

(** A stage of the report comes from a speed of the profile. *)
Lemma in_stages_inv (d : Q) (n : Z) (speed_profile : list Q) (s : TravelStage) :
  In s (map (spec_stage d n) (enumerate speed_profile 1)) ->
  exists i p, s = spec_stage d n (i, p) /\ In p speed_profile.
Proof.
  intros Hin. apply in_map_iff in Hin. destruct Hin as ([i p] & <- & Hip).
  exists i, p. split; [reflexivity|].
  rewrite <- (enumerate_snd speed_profile 1).
  apply in_map_iff. exists (i, p). split; [reflexivity | exact Hip].
Qed.

(** Term by term, a smaller list has a smaller sum. *)
Lemma Qsum_le (f g : Q -> Q) (l : list Q) :
  (forall x, In x l -> f x <= g x) ->
  Qsum (map f l) <= Qsum (map g l).
Proof.
  induction l as [|x l IH]; intros H.
  - apply Qle_refl.
  - cbn [map]. rewrite !Qsum_cons.
    pose proof (H x (or_introl eq_refl)).
    assert (Qsum (map f l) <= Qsum (map g l))
      by (apply IH; intros y Hy; apply H; right; exact Hy).
    lra.
Qed.

(** * How the stage formulas vary with the speed *)

Section Speeds.

Variable d : Q.
Variable n : Z.
Hypothesis d_pos : 0 < d.
Hypothesis n_pos : (1 <= n)%Z.

Lemma actual_distance_pos (p : Q) : 0 < p -> 0 < spec_actual_distance d n p.
Proof.
  intros Hp. pose proof (stage_distance_pos d n d_pos n_pos).
  pose proof (actual_distance_gt_nominal d n d_pos n_pos p Hp). lra.
Qed.

(** At a higher speed the expansion factor is smaller. *)
Lemma expansion_factor_antitone (p q : Q) :
  0 < p -> p <= q ->
  spec_expansion_factor d n q <= spec_expansion_factor d n p.
Proof.
  intros Hp Hpq. unfold spec_expansion_factor.
  pose proof (expansion_speed_pos d n d_pos n_pos) as He.
  assert (Hkp : 0 < spec_speed_km_s p) by (apply speed_km_s_pos; exact Hp).
  assert (Hkq : 0 < spec_speed_km_s q) by (apply speed_km_s_pos; lra).
  assert (Hk : spec_speed_km_s p <= spec_speed_km_s q).
  { unfold spec_speed_km_s, spec_speed_fraction.
    pose proof SPEED_OF_LIGHT_pos.
    unfold Qdiv. change (/ 100) with (1 # 100). nra. }
  set (e := spec_expansion_speed d n) in *.
  set (a := spec_speed_km_s p) in *. set (b := spec_speed_km_s q) in *.
  assert (H : e / b <= e / a).
  { apply Qle_shift_div_l; [exact Hkp|].
    setoid_replace (e / b * a) with (e * (a / b)) by (field; lra).
    assert (a / b <= 1) by (apply Qle_shift_div_r; lra).
    assert (0 < a / b) by (apply Qdiv_pos; lra).
    nra. }
  lra.
Qed.

Lemma actual_distance_antitone (p q : Q) :
  0 < p -> p <= q ->
  spec_actual_distance d n q <= spec_actual_distance d n p.
Proof.
  intros Hp Hpq. unfold spec_actual_distance.
  pose proof (stage_distance_pos d n d_pos n_pos).
  pose proof (expansion_factor_antitone p q Hp Hpq). nra.
Qed.

Lemma stage_time_antitone (p q : Q) :
  0 < p -> p <= q ->
  spec_stage_time d n q <= spec_stage_time d n p.
Proof.
  intros Hp Hpq. unfold spec_stage_time, spec_speed_fraction.
  pose proof (actual_distance_antitone p q Hp Hpq) as Ha.
  assert (Hq : 0 < q) by lra.
  pose proof (actual_distance_pos q Hq) as Haq.
  set (x := spec_actual_distance d n p) in *.
  set (y := spec_actual_distance d n q) in *.
  setoid_replace (y / (q / 100)) with (100 * (y / q)) by (field; lra).
  setoid_replace (x / (p / 100)) with (100 * (x / p)) by (field; lra).
  assert (H : y / q <= x / p).
  { apply Qle_shift_div_l; [exact Hp|].
    setoid_replace (y / q * p) with (y * (p / q)) by (field; lra).
    assert (p / q <= 1) by (apply Qle_shift_div_r; lra).
    assert (0 < p / q) by (apply Qdiv_pos; lra).
    nra. }
  lra.
Qed.

(** No stage is faster than light: its time in years is at least its
    distance in light-years. *)
Lemma stage_time_ge_actual_distance (p : Q) :
  0 < p -> p <= 100 ->
  spec_actual_distance d n p <= spec_stage_time d n p.
Proof.
  intros Hp Hp100. unfold spec_stage_time, spec_speed_fraction.
  pose proof (actual_distance_pos p Hp) as Ha.
  set (x := spec_actual_distance d n p) in *.
  apply Qle_shift_div_l; [apply Qdiv_pos; lra|].
  assert (p / 100 <= 1) by (apply Qle_shift_div_r; lra).
  assert (0 < p / 100) by (apply Qdiv_pos; lra).
  nra.
Qed.

End Speeds.

(** * Further properties of the report *)

(** X3.  The recorded speeds stay within the limits.  For valid inputs every
    stage's [speed_percentage] lies between 0.1 and 100, the limits of the
    check of line 54, whatever the shuffle. *)
Theorem stage_speeds_within_bounds
    shuffle dest d mid n min_speed max_speed :
  is_shuffle shuffle ->
  valid_inputs d n min_speed max_speed ->
  exists r,
    simulate_interstellar_travel shuffle dest d mid n min_speed max_speed = Ok r
    /\ forall s, In s (stages r) ->
         0.1 <= speed_percentage s /\ speed_percentage s <= 100.
Proof.
  intros Hs (Hd & Hn & Hv).
  eexists. split; [apply simulate_report; [exact Hv | lia | lra]|].
  cbn [stages]. intros s Hin.
  apply in_stages_inv in Hin. destruct Hin as (i & p & -> & Hp).
  destruct Hv as (H1 & H2 & H3).
  destruct (shuffled_range shuffle min_speed max_speed n p Hs H2 Hp) as [Ha Hb].
  cbn [spec_stage speed_percentage snd].
  assert (Hlo : py_round 0.1 2 <= py_round p 2) by (apply py_round_le; lra).
  assert (Hhi : py_round p 2 <= py_round 100 2) by (apply py_round_le; lra).
  assert (E1 : py_round 0.1 2 == 0.1) by reflexivity.
  assert (E2 : py_round 100 2 == 100) by reflexivity.
  split; lra.
Qed.

Lemma stage_speeds_witness :
  exists r,
    simulate_interstellar_travel (@rev Q) "Sirius" 8.611 "SIR-001" 5 1 5 = Ok r
    /\ forall s, In s (stages r) ->
         0.1 <= speed_percentage s /\ speed_percentage s <= 100.
Proof.
  apply (stage_speeds_within_bounds (@rev Q) "Sirius" 8.611 "SIR-001" 5 1 5).
  - exact rev_is_shuffle.
  - unfold valid_inputs, valid_speed_range. repeat split; try lia; lra.
Defined.

(** X4.  Nothing travels faster than light.  For valid inputs every stage
    records a [time_elapsed], in years, that is at least its
    [distance_covered], in light-years, and the [total_time] of the report
    is at least its [total_distance]. *)
Theorem time_is_at_least_distance
    shuffle dest d mid n min_speed max_speed :
  is_shuffle shuffle ->
  valid_inputs d n min_speed max_speed ->
  exists r,
    simulate_interstellar_travel shuffle dest d mid n min_speed max_speed = Ok r
    /\ (forall s, In s (stages r) -> distance_covered s <= time_elapsed s)
    /\ total_distance r <= total_time r.
Proof.
  intros Hs (Hd & Hn & Hv).
  assert (Hsp : forall p,
             In p (shuffle (linspace_samples min_speed max_speed n)) ->
             spec_actual_distance d n p <= spec_stage_time d n p).
  { intros p Hp.
    pose proof (shuffled_speeds_pos shuffle min_speed max_speed n p Hs Hv Hp).
    destruct Hv as (_ & H2 & H3).
    destruct (shuffled_range shuffle min_speed max_speed n p Hs H2 Hp).
    apply stage_time_ge_actual_distance; [exact Hd | exact Hn | lra | lra]. }
  eexists. split; [apply simulate_report; [exact Hv | lia | lra]|].
  cbn [stages total_distance total_time]. split.
  - intros s Hin. apply in_stages_inv in Hin.
    destruct Hin as (i & p & -> & Hp).
    cbn [spec_stage distance_covered time_elapsed snd].
    apply py_round_le, Hsp, Hp.
  - apply py_round_le, Qsum_le, Hsp.
Qed.

Lemma time_is_at_least_distance_witness :
  exists r,
    simulate_interstellar_travel (@rev Q) "Sirius" 8.611 "SIR-001" 5 1 5 = Ok r
    /\ (forall s, In s (stages r) -> distance_covered s <= time_elapsed s)
    /\ total_distance r <= total_time r.
Proof.
  apply (time_is_at_least_distance (@rev Q) "Sirius" 8.611 "SIR-001" 5 1 5).
  - exact rev_is_shuffle.
  - unfold valid_inputs, valid_speed_range. repeat split; try lia; lra.
Defined.



(** * The shuffle *)

Lemma stage_values_of_stages (d : Q) (n : Z) (speed_profile : list Q) :
  map stage_values (map (spec_stage d n) (enumerate speed_profile 1))
  = map (fun p => stage_values (spec_stage d n (0%Z, p))) speed_profile.
Proof.
  rewrite map_map.
  rewrite <- (enumerate_snd speed_profile 1) at 2. rewrite map_map.
  apply map_ext. intros [i p]. reflexivity.
Qed.

(** X7.  The shuffle only reorders the stages.  For valid inputs, two calls that
    differ only in the permutation drawn record the same stages up to their
    order and numbering: the same speeds, distances, times and expansion
    effects, each as many times. *)
Theorem shuffle_only_reorders_stages
    shuffle1 shuffle2 dest d mid n min_speed max_speed :
  is_shuffle shuffle1 ->
  is_shuffle shuffle2 ->
  valid_inputs d n min_speed max_speed ->
  exists r1 r2,
    simulate_interstellar_travel shuffle1 dest d mid n min_speed max_speed
    = Ok r1
    /\ simulate_interstellar_travel shuffle2 dest d mid n min_speed max_speed
       = Ok r2
    /\ map stage_number (stages r1) = map stage_number (stages r2)
    /\ Permutation (map stage_values (stages r1))
                   (map stage_values (stages r2)).
Proof.
  intros Hs1 Hs2 (Hd & Hn & Hv).
  eexists. eexists.
  split; [apply simulate_report; [exact Hv | lia | lra]|].
  split; [apply simulate_report; [exact Hv | lia | lra]|].
  cbn [stages]. split.
  - rewrite <- !run_stages_stages, !run_stages_numbers.
    rewrite !shuffled_length by assumption. reflexivity.
  - rewrite !stage_values_of_stages. apply Permutation_map.
    eapply Permutation_trans; [apply Permutation_sym, Hs1 | apply Hs2].
Qed.

Lemma shuffle_only_reorders_witness :
  exists r1 r2,
    simulate_interstellar_travel (@rev Q) "Sirius" 8.611 "SIR-001" 5 1 5
    = Ok r1
    /\ simulate_interstellar_travel (fun l => l) "Sirius" 8.611 "SIR-001" 5 1 5
       = Ok r2
    /\ map stage_number (stages r1) = map stage_number (stages r2)
    /\ Permutation (map stage_values (stages r1))
                   (map stage_values (stages r2)).
Proof.
  apply (shuffle_only_reorders_stages
           (@rev Q) (fun l => l) "Sirius" 8.611 "SIR-001" 5 1 5).
  - exact rev_is_shuffle.
  - intros l. apply Permutation_refl.
  - unfold valid_inputs, valid_speed_range. repeat split; try lia; lra.
Defined.

(** X8.  A faster stage is shorter.  For valid inputs, of two stages of a
    report the one flown at the higher speed records no more distance, no
    more time and no more expansion effect than the other. *)
Theorem faster_stage_is_shorter
    shuffle dest d mid n min_speed max_speed :
  is_shuffle shuffle ->
  valid_inputs d n min_speed max_speed ->
  exists r,
    simulate_interstellar_travel shuffle dest d mid n min_speed max_speed = Ok r
    /\ forall (i j : nat) (p q : Q) (s t : TravelStage),
         nth_error (shuffle (linspace_samples min_speed max_speed n)) i = Some p ->
         nth_error (shuffle (linspace_samples min_speed max_speed n)) j = Some q ->
         nth_error (stages r) i = Some s ->
         nth_error (stages r) j = Some t ->
         p <= q ->
         speed_percentage s <= speed_percentage t
         /\ distance_covered t <= distance_covered s
         /\ time_elapsed t <= time_elapsed s
         /\ expansion_effect t <= expansion_effect s.
Proof.
  intros Hs (Hd & Hn & Hv).
  eexists. split; [apply simulate_report; [exact Hv | lia | lra]|].
  cbn [stages]. intros i j p q s t Hp Hq Hsi Htj Hpq.
  rewrite nth_error_map, enumerate_nth_error, Hp in Hsi.
  rewrite nth_error_map, enumerate_nth_error, Hq in Htj.
  cbn [option_map] in Hsi, Htj.
  injection Hsi as <-. injection Htj as <-.
  assert (Hp0 : 0 < p).
  { apply (shuffled_speeds_pos shuffle min_speed max_speed n p Hs Hv).
    eapply nth_error_In, Hp. }
  cbn [spec_stage speed_percentage distance_covered time_elapsed
       expansion_effect snd].
  split; [apply py_round_le, Hpq|].
  split; [apply py_round_le, actual_distance_antitone; assumption|].
  split; [apply py_round_le, stage_time_antitone; assumption|].
  apply py_round_le.
  pose proof (expansion_factor_antitone d n Hd Hn p q Hp0 Hpq). lra.
Qed.

Lemma faster_stage_witness :
  exists r,
    simulate_interstellar_travel (@rev Q) "Sirius" 8.611 "SIR-001" 5 1 5 = Ok r
    /\ forall (i j : nat) (p q : Q) (s t : TravelStage),
         nth_error (rev (linspace_samples 1 5 5)) i = Some p ->
         nth_error (rev (linspace_samples 1 5 5)) j = Some q ->
         nth_error (stages r) i = Some s ->
         nth_error (stages r) j = Some t ->
         p <= q ->
         speed_percentage s <= speed_percentage t
         /\ distance_covered t <= distance_covered s
         /\ time_elapsed t <= time_elapsed s
         /\ expansion_effect t <= expansion_effect s.
Proof.
  apply (faster_stage_is_shorter (@rev Q) "Sirius" 8.611 "SIR-001" 5 1 5).
  - exact rev_is_shuffle.
  - unfold valid_inputs, valid_speed_range. repeat split; try lia; lra.
Defined.

(** * The summary *)

Lemma has_newline_app (s t : string) :
  has_newline (s ++ t) = has_newline s || has_newline t.
Proof.
  induction s as [|c s IH]; [reflexivity|].
  cbn [append has_newline]. rewrite IH. apply orb_assoc.
Qed.

Lemma string_of_uint_no_newline (d : Decimal.uint) :
  has_newline (NilEmpty.string_of_uint d) = false.
Proof. induction d; cbn; auto. Qed.

(** A decimal numeral holds no line feed. *)
Lemma str_of_int_no_newline (i : Z) : has_newline (str_of_int i) = false.
Proof.
  unfold str_of_int, NilZero.string_of_int, NilZero.string_of_uint.
  destruct (Z.to_int i) as [d|d]; destruct d; cbn [has_newline];
    rewrite ?has_newline_app; cbn;
    try apply string_of_uint_no_newline; reflexivity.
Qed.

Lemma fmt_floor_no_newline (x : float64) : has_newline (fmt_floor x) = false.
Proof. destruct x; [apply str_of_int_no_newline | reflexivity]. Qed.

(** A text without a line feed is one line. *)
Lemma split_lines_one (s : string) :
  has_newline s = false -> split_lines s = [s].
Proof.
  induction s as [|c s IH]; [reflexivity|].
  cbn [has_newline split_lines]. intros H.
  apply orb_false_iff in H. destruct H as [Hc Hs].
  rewrite Hc, (IH Hs). reflexivity.
Qed.

Lemma split_lines_app (s t : string) :
  has_newline s = false ->
  split_lines (s ++ newline ++ t) = s :: split_lines t.
Proof.
  induction s as [|c s IH]; intros H.
  - reflexivity.
  - cbn [has_newline] in H. apply orb_false_iff in H. destruct H as [Hc Hs].
    cbn [append split_lines]. rewrite Hc, (IH Hs). reflexivity.
Qed.

(** Splitting undoes joining, for lines without a line feed. *)
Lemma split_lines_concat (l : list string) :
  l <> [] ->
  Forall (fun s => has_newline s = false) l ->
  split_lines (String.concat newline l) = l.
Proof.
  induction l as [|x l IH]; intros Hne Hall; [congruence|].
  inversion Hall as [|? ? Hx Hl]; subst.
  destruct l as [|y l].
  - cbn [String.concat]. apply split_lines_one, Hx.
  - cbn [String.concat]. rewrite split_lines_app by exact Hx.
    f_equal. apply IH; [discriminate | exact Hl].
Qed.

Lemma prefix_app (s t : string) : prefix s (s ++ t) = true.
Proof.
  induction s as [|c s IH]; [destruct t; reflexivity|].
  cbn [append prefix]. destruct (ascii_dec c c); [exact IH | congruence].
Qed.

Lemma str_append_assoc (s t u : string) :
  ((s ++ t) ++ u = s ++ (t ++ u))%string.
Proof.
  induction s as [|c s IH]; [reflexivity|].
  cbn [append]. rewrite IH. reflexivity.
Qed.

Section Summary.

Variables fmt fmt_comma : float64 -> string.
Hypothesis fmt_no_newline : forall x, has_newline (fmt x) = false.
Hypothesis fmt_comma_no_newline : forall x, has_newline (fmt_comma x) = false.

Lemma stage_line_no_newline (stage : TravelStage) :
  has_newline (stage_line fmt fmt_comma stage) = false.
Proof.
  unfold stage_line.
  rewrite !has_newline_app, !fmt_no_newline, !fmt_comma_no_newline,
    str_of_int_no_newline.
  reflexivity.
Qed.

(** A stage line starts with the number of its stage. *)
Lemma stage_line_prefix (stage : TravelStage) :
  prefix ("Stage " ++ str_of_int (stage_number stage) ++ ": Speed: ")
         (stage_line fmt fmt_comma stage) = true.
Proof.
  unfold stage_line.
  set (rest := (fmt (Finite (speed_percentage stage)) ++ _)%string).
  transitivity
    (prefix ("Stage " ++ str_of_int (stage_number stage) ++ ": Speed: ")
            (("Stage " ++ str_of_int (stage_number stage) ++ ": Speed: ")
             ++ rest)).
  - f_equal. rewrite !str_append_assoc. reflexivity.
  - apply prefix_app.
Qed.

(** The summary joins its first line, which opens with a line feed, to the
    others: it is the join of an empty line and the same lines, the first
    without its line feed. *)
Lemma summary_as_join (report : MissionReport) :
  generate_mission_summary fmt fmt_comma report
  = String.concat newline
      ([ EmptyString;
         ("ðŸš€ MISSION REPORT: " ++ mission_id report)%string;
         ("Destination: " ++ destination report)%string;
         ("Original Distance: " ++ fmt_comma (Finite (distance report))
          ++ " light-years")%string;
         str_mul "=" 50 ]
       ++ map (stage_line fmt fmt_comma) (stages report)
       ++ [ str_mul "=" 50;
            ("TOTAL MISSION TIME: " ++ fmt_comma (Finite (total_time report))
             ++ " years")%string;
            ("ACTUAL DISTANCE TRAVELED: "
             ++ fmt_comma (Finite (total_distance report))
             ++ " light-years")%string;
            ("EXPANSION IMPACT: +" ++ fmt (expansion_addition report)
             ++ "% extra distance")%string ]).
Proof. reflexivity. Qed.

(** The lines of a summary, split on line feeds. *)
Lemma split_summary (report : MissionReport) :
  has_newline (mission_id report) = false ->
  has_newline (destination report) = false ->
  split_lines (generate_mission_summary fmt fmt_comma report)
  = [ EmptyString;
      ("ðŸš€ MISSION REPORT: " ++ mission_id report)%string;
      ("Destination: " ++ destination report)%string;
      ("Original Distance: " ++ fmt_comma (Finite (distance report))
       ++ " light-years")%string;
      str_mul "=" 50 ]
    ++ map (stage_line fmt fmt_comma) (stages report)
    ++ [ str_mul "=" 50;
         ("TOTAL MISSION TIME: " ++ fmt_comma (Finite (total_time report))
          ++ " years")%string;
         ("ACTUAL DISTANCE TRAVELED: "
          ++ fmt_comma (Finite (total_distance report))
          ++ " light-years")%string;
         ("EXPANSION IMPACT: +" ++ fmt (expansion_addition report)
          ++ "% extra distance")%string ].
Proof.
  intros Hmid Hdest.
  rewrite summary_as_join. apply split_lines_concat; [discriminate|].
  repeat apply Forall_cons; try apply Forall_app; try split;
    repeat apply Forall_cons; try apply Forall_nil;
    rewrite ?has_newline_app, ?fmt_no_newline, ?fmt_comma_no_newline,
      ?Hmid, ?Hdest; try reflexivity.
  apply Forall_forall. intros line Hin. apply in_map_iff in Hin.
  destruct Hin as (stage & <- & _). apply stage_line_no_newline.
Qed.

(** X13.  The layout of the summary.  When neither the mission identifier nor the
    destination holds a line feed (and the printed numbers hold none), the
    lines of the summary are: an empty line, the title with the mission
    identifier, the destination, the original distance, a rule of 50 equal
    signs, one line per stage in the order of the report, the same rule,
    and the three totals; that is 9 lines besides those of the stages. *)
Theorem summary_lines_layout (report : MissionReport) :
  has_newline (mission_id report) = false ->
  has_newline (destination report) = false ->
  split_lines (generate_mission_summary fmt fmt_comma report)
  = [ EmptyString;
      ("ðŸš€ MISSION REPORT: " ++ mission_id report)%string;
      ("Destination: " ++ destination report)%string;
      ("Original Distance: " ++ fmt_comma (Finite (distance report))
       ++ " light-years")%string;
      str_mul "=" 50 ]
    ++ map (stage_line fmt fmt_comma) (stages report)
    ++ [ str_mul "=" 50;
         ("TOTAL MISSION TIME: " ++ fmt_comma (Finite (total_time report))
          ++ " years")%string;
         ("ACTUAL DISTANCE TRAVELED: "
          ++ fmt_comma (Finite (total_distance report))
          ++ " light-years")%string;
         ("EXPANSION IMPACT: +" ++ fmt (expansion_addition report)
          ++ "% extra distance")%string ]
  /\ length (split_lines (generate_mission_summary fmt fmt_comma report))
     = (length (stages report) + 9)%nat.
Proof.
  intros Hmid Hdest.
  pose proof (split_summary report Hmid Hdest) as Hsplit.
  split; [exact Hsplit|].
  rewrite Hsplit. cbn [app length]. rewrite length_app, length_map.
  cbn [length]. lia.
Qed.

(** X14.  The summary of a simulation.  For valid inputs, with a destination and
    a mission identifier that hold no line feed, the summary of the report
    has [num_stages + 9] lines, and for every [k] below [num_stages] the
    line at index [5 + k] is the line of stage [k + 1]: it starts with
    ["Stage "], that number in decimal, and [": Speed: "]. *)
Theorem summary_of_a_simulation
    shuffle dest d mid n min_speed max_speed :
  is_shuffle shuffle ->
  valid_inputs d n min_speed max_speed ->
  has_newline mid = false ->
  has_newline dest = false ->
  exists r,
    simulate_interstellar_travel shuffle dest d mid n min_speed max_speed = Ok r
    /\ length (split_lines (generate_mission_summary fmt fmt_comma r))
       = (Z.to_nat n + 9)%nat
    /\ forall k : nat, (k < Z.to_nat n)%nat ->
         exists line,
           nth_error (split_lines (generate_mission_summary fmt fmt_comma r))
                     (5 + k) = Some line
           /\ prefix ("Stage " ++ str_of_int (Z.of_nat k + 1) ++ ": Speed: ")
                     line = true.
Proof.
  intros Hs (Hd & Hn & Hv) Hmid Hdest.
  eexists. split; [apply simulate_report; [exact Hv | lia | lra]|].
  match goal with |- context [generate_mission_summary fmt fmt_comma ?r] =>
    pose proof (split_summary r Hmid Hdest) as Hlay
  end.
  rewrite Hlay. cbn [stages mission_id destination distance total_time
    total_distance expansion_addition].
  set (sp := shuffle (linspace_samples min_speed max_speed n)).
  assert (Hsp : length sp = Z.to_nat n) by (apply shuffled_length, Hs).
  split.
  - cbn [app length]. rewrite length_app, !length_map, enumerate_length, Hsp.
    cbn [length]. lia.
  - intros k Hk.
    destruct (nth_error sp k) as [p|] eqn:Hp;
      [|apply nth_error_None in Hp; lia].
    exists (stage_line fmt fmt_comma (spec_stage d n (1 + Z.of_nat k, p)%Z)).
    split.
    + change (5 + k)%nat with (S (S (S (S (S k))))). cbn [app nth_error].
      rewrite nth_error_app1
        by (rewrite !length_map, enumerate_length, Hsp; exact Hk).
      rewrite !nth_error_map, enumerate_nth_error, Hp. reflexivity.
    + replace (Z.of_nat k + 1)%Z with (1 + Z.of_nat k)%Z by lia.
      apply (stage_line_prefix (spec_stage d n (1 + Z.of_nat k, p)%Z)).
Qed.

End Summary.

Lemma summary_lines_layout_witness :
  let report :=
    {| destination := "Sirius"; distance := 8.611; mission_id := "SIR-001";
       stages := [ mkTravelStage 1 5 8.61 172.22 0 ];
       total_time := 172.22; total_distance := 8.61;
       expansion_addition := Finite 0 |} in
  split_lines (generate_mission_summary fmt_floor fmt_floor report)
  = [ EmptyString;
      ("ðŸš€ MISSION REPORT: " ++ mission_id report)%string;
      ("Destination: " ++ destination report)%string;
      ("Original Distance: " ++ fmt_floor (Finite (distance report))
       ++ " light-years")%string;
      str_mul "=" 50 ]
    ++ map (stage_line fmt_floor fmt_floor) (stages report)
    ++ [ str_mul "=" 50;
         ("TOTAL MISSION TIME: " ++ fmt_floor (Finite (total_time report))
          ++ " years")%string;
         ("ACTUAL DISTANCE TRAVELED: "
          ++ fmt_floor (Finite (total_distance report))
          ++ " light-years")%string;
         ("EXPANSION IMPACT: +" ++ fmt_floor (expansion_addition report)
          ++ "% extra distance")%string ]
  /\ length (split_lines (generate_mission_summary fmt_floor fmt_floor report))
     = (length (stages report) + 9)%nat.
Proof.
  cbn zeta.
  apply (summary_lines_layout fmt_floor fmt_floor
           fmt_floor_no_newline fmt_floor_no_newline);
    reflexivity.
Defined.

Lemma summary_of_a_simulation_witness :
  exists r,
    simulate_interstellar_travel (@rev Q) "Sirius" 8.611 "SIR-001" 5 1 5 = Ok r
    /\ length (split_lines (generate_mission_summary fmt_floor fmt_floor r))
       = (Z.to_nat 5 + 9)%nat
    /\ forall k : nat, (k < Z.to_nat 5)%nat ->
         exists line,
           nth_error (split_lines (generate_mission_summary fmt_floor fmt_floor r))
                     (5 + k) = Some line
           /\ prefix ("Stage " ++ str_of_int (Z.of_nat k + 1) ++ ": Speed: ")
                     line = true.
Proof.
  apply (summary_of_a_simulation fmt_floor fmt_floor
           fmt_floor_no_newline fmt_floor_no_newline
           (@rev Q) "Sirius" 8.611 "SIR-001" 5 1 5).
  - exact rev_is_shuffle.
  - unfold valid_inputs, valid_speed_range. repeat split; try lia; lra.
  - reflexivity.
  - reflexivity.
Defined.

(** The summary of the mission of the entry point, with the numbers
    printed by their integer part. *)
Example andromeda_summary_lines :
  exists r,
    simulate_interstellar_travel (fun l => l) "Andromeda Galaxy" 2500000
                                 "AND-001" 5 10 10 = Ok r
    /\ split_lines (generate_mission_summary fmt_floor fmt_floor r)
       = [ "";
           "ðŸš€ MISSION REPORT: AND-001";
           "Destination: Andromeda Galaxy";
           "Original Distance: 2500000 light-years";
           "==================================================";
           "Stage 1: Speed: 10% light | Distance: 500178 ly | Time: 5001789 yrs | Expansion: +0%";
           "Stage 2: Speed: 10% light | Distance: 500178 ly | Time: 5001789 yrs | Expansion: +0%";
           "Stage 3: Speed: 10% light | Distance: 500178 ly | Time: 5001789 yrs | Expansion: +0%";
           "Stage 4: Speed: 10% light | Distance: 500178 ly | Time: 5001789 yrs | Expansion: +0%";
           "Stage 5: Speed: 10% light | Distance: 500178 ly | Time: 5001789 yrs | Expansion: +0%";
           "==================================================";
           "TOTAL MISSION TIME: 25008948 years";
           "ACTUAL DISTANCE TRAVELED: 2500894 light-years";
           "EXPANSION IMPACT: +0% extra distance" ]%string.
Proof. eexists. split; vm_compute; reflexivity. Qed.



(** * The total distance and the stages *)





(** A negative stage count, as NumPy reports it. *)
Example negative_stage_count_message :
  simulate_interstellar_travel (fun l => l) "Sirius" 8.611 "SIR-001" (-1) 1 5
  = Raise (ValueError "Number of samples, -1, must be non-negative.").
Proof. reflexivity. Qed.

(** * The function over binary64 floats

    What each field of the report equals is stated of the embedding over
    binary64 floats, where the products, quotients, sums and roundings are
    those of the machine. *)

Module Binary64Properties.

Import Binary64.

#[local] Open Scope float_scope.

(** One iteration, by the stage formulas. *)
Lemma loop_body_formulas (d : float) (n : Z) (st : loop_state)
    (i : Z) (p : float) :
  loop_body d n st (i, p)
  = {| st_stages := st_stages st ++
         [ {| stage_number := i;
              speed_percentage := np_round p 2;
              distance_covered := np_round (actual_distance d n p) 2;
              time_elapsed := np_round (stage_time d n p) 2;
              expansion_effect :=
                np_round ((expansion_factor d n p - 1) * 100) 4 |} ];
       st_remaining_distance := st_remaining_distance st - stage_distance d n;
       st_total_time := st_total_time st + stage_time d n p;
       st_total_actual_distance :=
         st_total_actual_distance st + actual_distance d n p |}.
Proof. reflexivity. Qed.

(** The loop from any state: one record per speed, in order, and the two
    totals accumulated from left to right. *)
Lemma fold_loop_body_formulas (d : float) (n : Z) (its : list (Z * float))
    (st : loop_state) :
  let st' := fold_left (loop_body d n) its st in
  st_stages st'
  = st_stages st ++
    map (fun it =>
           {| stage_number := fst it;
              speed_percentage := np_round (snd it) 2;
              distance_covered := np_round (actual_distance d n (snd it)) 2;
              time_elapsed := np_round (stage_time d n (snd it)) 2;
              expansion_effect :=
                np_round ((expansion_factor d n (snd it) - 1) * 100) 4 |}) its
  /\ st_total_time st'
     = fold_left PrimFloat.add (map (fun it => stage_time d n (snd it)) its)
                 (st_total_time st)
  /\ st_total_actual_distance st'
     = fold_left PrimFloat.add
                 (map (fun it => actual_distance d n (snd it)) its)
                 (st_total_actual_distance st).
Proof.
  revert st. induction its as [|[i p] its IH]; intros st; cbn zeta.
  - simpl. rewrite app_nil_r. auto.
  - cbn [fold_left map]. specialize (IH (loop_body d n st (i, p))).
    cbn zeta in IH. destruct IH as (Hs & Ht & Hd).
    rewrite Hs, Ht, Hd, loop_body_formulas.
    cbn [st_stages st_total_time st_total_actual_distance fst snd].
    rewrite <- app_assoc. auto.
Qed.

Lemma run_stages_records (d : float) (n : Z) (speed_profile : list float) :
  st_stages (run_stages d n speed_profile)
  = map (fun it =>
           {| stage_number := fst it;
              speed_percentage := np_round (snd it) 2;
              distance_covered := np_round (actual_distance d n (snd it)) 2;
              time_elapsed := np_round (stage_time d n (snd it)) 2;
              expansion_effect :=
                np_round ((expansion_factor d n (snd it) - 1) * 100) 4 |})
        (enumerate speed_profile 1).
Proof.
  unfold run_stages.
  destruct (fold_loop_body_formulas d n (enumerate speed_profile 1)
              {| st_stages := [];
                 st_remaining_distance := d;
                 st_total_time := 0;
                 st_total_actual_distance := 0 |}) as (Hs & _ & _).
  exact Hs.
Qed.

Lemma run_stages_accumulates (d : float) (n : Z) (speed_profile : list float) :
  st_total_time (run_stages d n speed_profile)
  = accumulate (map (stage_time d n) speed_profile)
  /\ st_total_actual_distance (run_stages d n speed_profile)
     = accumulate (map (actual_distance d n) speed_profile).
Proof.
  unfold run_stages.
  destruct (fold_loop_body_formulas d n (enumerate speed_profile 1)
              {| st_stages := [];
                 st_remaining_distance := d;
                 st_total_time := 0;
                 st_total_actual_distance := 0 |}) as (_ & Ht & Hd).
  rewrite Ht, Hd. unfold accumulate.
  cbn [st_total_time st_total_actual_distance].
  rewrite <- (enumerate_snd speed_profile 1) at 2 4. rewrite !map_map.
  split; reflexivity.
Qed.

(** [np.linspace] returns as many samples as it is asked for. *)
Lemma linspace_samples_count (start stop : float) (num : Z) :
  length (linspace_samples start stop num) = Z.to_nat num.
Proof.
  unfold linspace_samples.
  set (idx := map _ (seq 0 (Z.to_nat num))).
  assert (Hidx : length idx = Z.to_nat num)
    by (unfold idx; rewrite length_map, length_seq; reflexivity).
  set (y := if (0 <? num - 1)%Z then _ else _).
  assert (Hy : length y = Z.to_nat num).
  { unfold y. destruct (0 <? num - 1)%Z; [destruct (_ =? 0)|];
      rewrite length_map; exact Hidx. }
  destruct (Z.ltb_spec 1 num) as [Hn|Hn].
  - rewrite length_app, removelast_firstn_len, length_firstn, length_map, Hy.
    cbn [length]. lia.
  - rewrite length_map. exact Hy.
Qed.

Lemma shuffled_count shuffle (start stop : float) (num : Z) :
  is_shuffle shuffle ->
  length (shuffle (linspace_samples start stop num)) = Z.to_nat num.
Proof.
  intros Hs. rewrite <- (Permutation_length (Hs _)).
  apply linspace_samples_count.
Qed.

Lemma rev_shuffles_floats : is_shuffle (@rev float).
Proof. intros l. apply Permutation_rev. Qed.

(** The report of a call that passes the check of line 54 and has at least
    one stage: no exception, and every field by the stage formulas. *)
Lemma simulate_report_formulas shuffle dest d mid n min_speed max_speed :
  is_shuffle shuffle ->
  speed_check min_speed max_speed = true ->
  (1 <= n)%Z ->
  let speed_profile := shuffle (linspace_samples min_speed max_speed n) in
  simulate_interstellar_travel shuffle dest d mid n min_speed max_speed
  = Ok {| destination := dest;
          distance := d;
          mission_id := mid;
          stages :=
            map (fun it =>
                   {| stage_number := fst it;
                      speed_percentage := np_round (snd it) 2;
                      distance_covered :=
                        np_round (actual_distance d n (snd it)) 2;
                      time_elapsed := np_round (stage_time d n (snd it)) 2;
                      expansion_effect :=
                        np_round ((expansion_factor d n (snd it) - 1) * 100) 4
                   |})
                (enumerate speed_profile 1);
          total_time :=
            np_round (accumulate (map (stage_time d n) speed_profile)) 2;
          total_distance :=
            np_round (accumulate (map (actual_distance d n) speed_profile)) 2;
          expansion_addition :=
            np_round
              ((accumulate (map (actual_distance d n) speed_profile) / d - 1)
               * 100) 4 |}.
Proof.
  intros Hs Hv Hn speed_profile. unfold simulate_interstellar_travel.
  rewrite Hv. cbn [negb]. unfold linspace.
  destruct (Z.ltb_spec n 0) as [|_]; [lia|]. fold speed_profile.
  assert (Hlen : length speed_profile = Z.to_nat n)
    by (apply shuffled_count, Hs).
  unfold expansion_impact. rewrite run_stages_records.
  destruct (run_stages_accumulates d n speed_profile) as [Ht Hd].
  rewrite Ht, Hd.
  destruct speed_profile as [|p l]; [simpl in Hlen; lia|].
  reflexivity.
Qed.

(** C2.  For valid inputs, the stage at every position [i] of the report
    records, rounded as lines 90-93 round them, the values that the
    formulas of the specification give in binary64 for the speed [p] at
    position [i] of the shuffled profile: an equal share of the distance,
    whatever the speed; that share in megaparsecs; the expansion speed and
    factor; the actual distance; and a time that divides the actual
    distance by the speed fraction [p / 100]. *)
Theorem stage_values_follow_the_formulas
    shuffle dest d mid n min_speed max_speed :
  is_shuffle shuffle ->
  valid_inputs d n min_speed max_speed ->
  exists r,
    simulate_interstellar_travel shuffle dest d mid n min_speed max_speed = Ok r
    /\ length (stages r)
       = length (shuffle (linspace_samples min_speed max_speed n))
    /\ forall (i : nat) (p : float),
         nth_error (shuffle (linspace_samples min_speed max_speed n)) i = Some p ->
         let speed_fraction := p / 100 in
         let stage_distance := d / of_uint63 (Uint63.of_Z n) in
         let distance_mpc := stage_distance / MPC_TO_LY in
         let expansion_speed := HUBBLE_CONSTANT * distance_mpc in
         let expansion_factor :=
           1 + expansion_speed / (speed_fraction * SPEED_OF_LIGHT) in
         let actual_distance := stage_distance * expansion_factor in
         let stage_time := actual_distance / speed_fraction in
         nth_error (stages r) i
         = Some {| stage_number := Z.of_nat i + 1;
                   speed_percentage := np_round p 2;
                   distance_covered := np_round actual_distance 2;
                   time_elapsed := np_round stage_time 2;
                   expansion_effect :=
                     np_round ((expansion_factor - 1) * 100) 4 |}.
Proof.
  intros Hs (Hd & (Hn & _) & Hv).
  eexists. split; [apply simulate_report_formulas; assumption|].
  cbn [stages].
  split; [rewrite length_map; apply enumerate_length|].
  intros i p Hp. cbn zeta.
  rewrite nth_error_map, enumerate_nth_error, Hp. cbn [option_map fst snd].
  do 2 f_equal. lia.
Qed.

Lemma stage_values_witness :
  exists r,
    simulate_interstellar_travel (@rev float) "Sirius" 8.611 "SIR-001" 3 1 5
    = Ok r
    /\ length (stages r) = length (rev (linspace_samples 1 5 3))
    /\ forall (i : nat) (p : float),
         nth_error (rev (linspace_samples 1 5 3)) i = Some p ->
         let speed_fraction := p / 100 in
         let stage_distance := 8.611 / of_uint63 (Uint63.of_Z 3) in
         let distance_mpc := stage_distance / MPC_TO_LY in
         let expansion_speed := HUBBLE_CONSTANT * distance_mpc in
         let expansion_factor :=
           1 + expansion_speed / (speed_fraction * SPEED_OF_LIGHT) in
         let actual_distance := stage_distance * expansion_factor in
         let stage_time := actual_distance / speed_fraction in
         nth_error (stages r) i
         = Some {| stage_number := Z.of_nat i + 1;
                   speed_percentage := np_round p 2;
                   distance_covered := np_round actual_distance 2;
                   time_elapsed := np_round stage_time 2;
                   expansion_effect :=
                     np_round ((expansion_factor - 1) * 100) 4 |}.
Proof.
  apply (stage_values_follow_the_formulas
           (@rev float) "Sirius" 8.611 "SIR-001" 3 1 5).
  - exact rev_shuffles_floats.
  - unfold valid_inputs. repeat split; try lia; reflexivity.
Defined.




(** C7, as the code has it.  For valid inputs with a single stage the
    profile is the single sample of [np.linspace], [0 * (max_speed -
    min_speed) + min_speed], and the report holds one stage, numbered 1.
    Its nominal share is the whole distance, [distance_ly / 1]; the
    [distance_covered] it records is that share times the expansion factor,
    rounded to 2 decimals: the distance after the expansion correction.
    The [total_distance] of the report is the rounding of that same actual
    distance, added to the initial [0.0]. *)
Theorem single_stage_covers_expanded_distance
    shuffle dest d mid min_speed max_speed :
  is_shuffle shuffle ->
  valid_inputs d 1 min_speed max_speed ->
  exists r s p,
    simulate_interstellar_travel shuffle dest d mid 1 min_speed max_speed = Ok r
    /\ p = 0 * (max_speed - min_speed) + min_speed
    /\ stages r = [s]
    /\ stage_number s = 1%Z
    /\ speed_percentage s = np_round p 2
    /\ distance_covered s
       = np_round
           (d / 1
            * (1 + HUBBLE_CONSTANT * (d / 1 / MPC_TO_LY)
                   / (p / 100 * SPEED_OF_LIGHT))) 2
    /\ total_distance r
       = np_round
           (0 + d / 1
                * (1 + HUBBLE_CONSTANT * (d / 1 / MPC_TO_LY)
                       / (p / 100 * SPEED_OF_LIGHT))) 2.
Proof.
  intros Hs (Hd & (Hn & _) & Hv).
  assert (Hsp : shuffle (linspace_samples min_speed max_speed 1)
                = [0 * (max_speed - min_speed) + min_speed]).
  { pose proof (Hs (linspace_samples min_speed max_speed 1)) as Hperm.
    change (linspace_samples min_speed max_speed 1)
      with [0 * (max_speed - min_speed) + min_speed] in Hperm at 1.
    apply Permutation_length_1_inv in Hperm. exact Hperm. }
  eexists. eexists. eexists.
  split; [apply simulate_report_formulas; assumption|].
  cbn [stages total_distance]. rewrite Hsp.
  cbn [enumerate map fst snd]. unfold accumulate. cbn [fold_left].
  repeat split.
Qed.

Lemma single_stage_witness :
  exists r s p,
    simulate_interstellar_travel (@rev float) "Andromeda Galaxy" 2500000
                                 "AND-001" 1 10 10 = Ok r
    /\ p = 0 * (10 - 10) + 10
    /\ stages r = [s]
    /\ stage_number s = 1%Z
    /\ speed_percentage s = np_round p 2
    /\ distance_covered s
       = np_round
           (2500000 / 1
            * (1 + HUBBLE_CONSTANT * (2500000 / 1 / MPC_TO_LY)
                   / (p / 100 * SPEED_OF_LIGHT))) 2
    /\ total_distance r
       = np_round
           (0 + 2500000 / 1
                * (1 + HUBBLE_CONSTANT * (2500000 / 1 / MPC_TO_LY)
                       / (p / 100 * SPEED_OF_LIGHT))) 2.
Proof.
  apply (single_stage_covers_expanded_distance
           (@rev float) "Andromeda Galaxy" 2500000 "AND-001" 10 10).
  - exact rev_shuffles_floats.
  - unfold valid_inputs. repeat split; try lia; reflexivity.
Defined.



(** The program at 100,000,000,000 light-years in 2 stages, at 0.1 and 0.5
    percent: the two stage distances add up to 1/32 more than the total of
    the report, six times the 0.005 of a rounding. *)
Example large_distances_leave_a_larger_gap :
  exists r a b,
    simulate_interstellar_travel (fun l => l) "Far" 100000000000 "FAR-002"
                                 2 0.1 0.5 = Ok r
    /\ map distance_covered (stages r) = [a; b]
    /\ (0.03 <? abs (a + b - total_distance r)) = true.
Proof.
  eexists. eexists. eexists. split; [vm_compute; reflexivity|].
  cbn [stages map distance_covered]. split; reflexivity.
Qed.

End Binary64Properties.
